(** * fiopush / ostreehub: a shallow embedding of the dedup-aware sync pipeline

  The development follows the two Go packages of the repository:

  - [oshub]   (pkg/oshub/upload.go, pkg/oshub/tar.go): the hub side, i.e. the
    check stage, the filter, the uploader pool, the aggregator and the
    archive unpacker;
  - [fiopush] (pkg/fiopush/push.go): the client side, i.e. the pre-flight
    check, the walker, the batcher and the check request.

  Go values are modelled as the code has them: strings are byte strings
  ([string], one [ascii] per byte), [uint32] counters are [Z] with their
  wrap-around written out, Go maps are [gmap string _], channels that a
  single consumer drains are lists in arrival order, and a panic or a
  [log.Fatalf] is an explicit outcome. *)

From Stdlib Require Import ZArith String Ascii List Lia.
From stdpp Require Import gmap strings list pretty.

Open Scope string_scope.
Open Scope Z_scope.

(** ** Go built-ins: byte strings and fixed-width integers *)

Module golang.

(** [uint32(x)]: conversion to a 32-bit unsigned integer. *)
Definition uint32 (x : Z) : Z := x mod 2 ^ 32.

(** [strings.HasPrefix(s, p)]. *)
Definition HasPrefix (s p : string) : bool := String.prefix p s.

(** [s[n:]]: the slice expression panics when [n > len(s)]. *)
Fixpoint slice_from (n : nat) (s : string) : option string :=
  match n with
  | O => Some s
  | S k =>
      match s with
      | EmptyString => None
      | String _ r => slice_from k r
      end
  end.

(** A Go [error] value is observed only through [err.Error()] and through
    comparison with sentinel values; the model keeps the sentinel that the
    code compares against and the message of every other error. *)
Inductive error :=
| ErrObjectNotExist
| ErrOther (msg : string).

Definition Error (e : error) : string :=
  match e with
  | ErrObjectNotExist => "storage: object doesn't exist"
  | ErrOther msg => msg
  end.

Definition is_ErrObjectNotExist (e : error) : bool :=
  match e with
  | ErrObjectNotExist => true
  | ErrOther _ => false
  end.

End golang.

(** ** hash/crc32 with the Castagnoli polynomial *)

Module crc32.

(** The reversed Castagnoli polynomial. *)
Definition Castagnoli : Z := 0x82F63B78.

Definition byte_of (c : ascii) : Z := Z.of_nat (nat_of_ascii c).

Fixpoint shift_bits (fuel : nat) (crc : Z) : Z :=
  match fuel with
  | O => crc
  | S k =>
      shift_bits k
        (if Z.testbit crc 0
         then Z.lxor (Z.shiftr crc 1) Castagnoli
         else Z.shiftr crc 1)
  end.

Definition update_byte (crc : Z) (c : ascii) : Z :=
  shift_bits 8 (Z.lxor crc (byte_of c)).

Fixpoint update (crc : Z) (s : string) : Z :=
  match s with
  | EmptyString => crc
  | String c r => update (update_byte crc c) r
  end.

(** [hasher.Reset(); io.Copy(hasher, f); hasher.Sum32()]. *)
Definition Sum32 (s : string) : Z :=
  Z.lxor (update 0xFFFFFFFF s) 0xFFFFFFFF.

End crc32.

(** ** path: lexical path cleaning and joining *)

Module gopath.

Definition slash : ascii := "/"%char.

(** Split on ['/'], keeping empty components. *)
Fixpoint split_go (s : string) (cur : string) : list string :=
  match s with
  | EmptyString => [cur]
  | String c r =>
      if Ascii.eqb c slash
      then cur :: split_go r EmptyString
      else split_go r (cur +:+ String c EmptyString)
  end.

Definition split (s : string) : list string := split_go s EmptyString.

Definition rooted (p : string) : bool :=
  match p with
  | String c _ => Ascii.eqb c slash
  | EmptyString => false
  end.

(** One step of [Clean]: [out] is the stack of kept components, innermost
    first. *)
Definition clean_step (is_rooted : bool) (out : list string) (c : string)
  : list string :=
  if String.eqb c "" then out
  else if String.eqb c "." then out
  else if String.eqb c ".." then
    match out with
    | x :: rest => if String.eqb x ".." then c :: out else rest
    | [] => if is_rooted then out else [c]
    end
  else c :: out.

Definition components (p : string) : list string :=
  rev (fold_left (clean_step (rooted p)) (split p) []).

Fixpoint join_with_slash (cs : list string) : string :=
  match cs with
  | [] => ""
  | [c] => c
  | c :: rest => c +:+ "/" +:+ join_with_slash rest
  end.

(** [path.Clean]. *)
Definition Clean (p : string) : string :=
  let body := join_with_slash (components p) in
  if rooted p then "/" +:+ body
  else if String.eqb body "" then "." else body.

(** [path.Join(a, b)]: empty elements are ignored, the result is cleaned. *)
Definition Join (a b : string) : string :=
  if String.eqb a "" then (if String.eqb b "" then "" else Clean b)
  else if String.eqb b "" then Clean a
  else Clean (a +:+ "/" +:+ b).

(** [path.Dir]: everything up to the final slash, cleaned. *)
Fixpoint upto_last_slash (s : string) : string :=
  match s with
  | EmptyString => EmptyString
  | String c r =>
      let r' := upto_last_slash r in
      if String.eqb r' "" then
        (if Ascii.eqb c slash then String c EmptyString else EmptyString)
      else String c r'
  end.

Definition Dir (p : string) : string := Clean (upto_last_slash p).

End gopath.

(** ** strconv.ParseUint, base 10 *)

Module strconv.

(** The width of [uint]: the hub is built for a 64-bit platform. *)
Definition IntSize : Z := 64.
Definition maxUint64 : Z := 2 ^ 64 - 1.

Definition uint64 (x : Z) : Z := x mod 2 ^ 64.

Inductive NumError := ErrSyntax | ErrRange | ErrBitSize.

Definition byte_of (c : ascii) : Z := Z.of_nat (nat_of_ascii c).

(** ['0' <= c && c <= '9']. *)
Definition is_digit (c : ascii) : bool :=
  (48 <=? byte_of c) && (byte_of c <=? 57).

(** The digit loop.  In base 10 a byte that is not a decimal digit is a
    syntax error: a letter is a digit of value 10 or more, which the loop
    rejects, and an underscore is only accepted in base 0. *)
Fixpoint ParseUint_loop (s : string) (cutoff maxVal n : Z)
  : Z * option NumError :=
  match s with
  | EmptyString => (n, None)
  | String c r =>
      if is_digit c then
        let d := byte_of c - 48 in
        if n >=? cutoff then (maxVal, Some ErrRange)
        else
          let n := uint64 (n * 10) in
          let n1 := uint64 (n + d) in
          if (n1 <? n) || (n1 >? maxVal) then (maxVal, Some ErrRange)
          else ParseUint_loop r cutoff maxVal n1
      else (0, Some ErrSyntax)
  end.

(** [strconv.ParseUint(s, 10, bitSize)]. *)
Definition ParseUint (s : string) (bitSize : Z) : Z * option NumError :=
  if String.eqb s "" then (0, Some ErrSyntax)
  else
    let bitSize := if bitSize =? 0 then IntSize else bitSize in
    if (bitSize <? 0) || (bitSize >? 64) then (0, Some ErrBitSize)
    else
      let cutoff := maxUint64 / 10 + 1 in
      let maxVal := uint64 (uint64 (Z.shiftl 1 bitSize) - 1) in
      ParseUint_loop s cutoff maxVal 0.

End strconv.

(** ** The hub: pkg/oshub *)

Module oshub.
Import golang.

Record RepoFile := mkRepoFile {
  Path : string;
  CRC32 : Z  (* uint32 *)
}.

Record SendReport := mkSendReport {
  FileNumb : Z;
  ObjNumb : Z;
  Bytes : Z
}.

Record SyncReport := mkSyncReport {
  UploadedFileNumb : Z;      (* uint32, json "uploaded" *)
  SyncedFileNumb : Z;        (* uint32, json "synced" *)
  UploadSyncedFileNumb : Z;  (* uint32, json "upload_synced" *)
  SyncFailedNumb : Z         (* uint32, json "sync_failed" *)
}.

Definition FilesToCheckMaxNumb : Z := 500.

Record uploadStatus := mkUploadStatus {
  Object : string;
  Exist : bool;
  Err : string
}.

(** *** The world the hub acts on

    The bucket maps object names to stored bytes, the staging directory maps
    file paths to bytes.  Every external operation is logged in [trace], and
    [fault] lets any single operation fail with a given message, so that the
    error branches of the code are reachable. *)

Inductive Op :=
| OpAttrs (objectName : string)
| OpOpen (path : string)
| OpNewWriter (objectName : string)
| OpCopy (objectName : string)
| OpClose (objectName : string)
| OpMkdirAll (dir : string)
| OpCreate (path : string)
| OpWriteFile (path : string).

Record World := mkWorld {
  bucket : gmap string string;
  files : gmap string string;
  dirs : gset string;
  fault : Op -> option string;
  trace : list Op
}.

Definition log (o : Op) (w : World) : World :=
  mkWorld (bucket w) (files w) (dirs w) (fault w) (trace w ++ [o])%list.

Definition put_object (objectName data : string) (w : World) : World :=
  mkWorld (<[objectName := data]> (bucket w)) (files w) (dirs w) (fault w)
    (trace w).

Definition put_file (path data : string) (w : World) : World :=
  mkWorld (bucket w) (<[path := data]> (files w)) (dirs w) (fault w)
    (trace w).

Definition put_dir (dir : string) (w : World) : World :=
  mkWorld (bucket w) (files w) ({[dir]} ∪ dirs w) (fault w) (trace w).

(** A computation of the hub either returns, or panics after having produced
    part of its output. *)
Inductive run (A : Type) :=
| Done (a : A) (w : World)
| Panicked (msg : string) (partial : A) (w : World).
Arguments Done {A} a w.
Arguments Panicked {A} msg partial w.

Definition output {A} (r : run A) : A :=
  match r with
  | Done a _ => a
  | Panicked _ a _ => a
  end.

Definition final_world {A} (r : run A) : World :=
  match r with
  | Done _ w => w
  | Panicked _ _ w => w
  end.

Definition panicked {A} (r : run A) : bool :=
  match r with
  | Done _ _ => false
  | Panicked _ _ _ => true
  end.

Definition emit {A} (x : A) (r : run (list A)) : run (list A) :=
  match r with
  | Done xs w => Done (x :: xs) w
  | Panicked msg xs w => Panicked msg (x :: xs) w
  end.

(** [obj.Attrs(ctx)]: the server-side CRC-32C of the stored object, the
    sentinel [ErrObjectNotExist], or some other error. *)
Definition Attrs (objectName : string) (w : World) : (Z + error) * World :=
  let w' := log (OpAttrs objectName) w in
  match fault w (OpAttrs objectName) with
  | Some msg => (inr (ErrOther msg), w')
  | None =>
      match bucket w !! objectName with
      | Some data => (inl (crc32.Sum32 data), w')
      | None => (inr ErrObjectNotExist, w')
      end
  end.

(** [os.Open(path)] on the staging directory. *)
Definition Open (path : string) (w : World) : (string + error) * World :=
  let w' := log (OpOpen path) w in
  match fault w (OpOpen path) with
  | Some msg => (inr (ErrOther msg), w')
  | None =>
      match files w !! path with
      | Some data => (inl data, w')
      | None =>
          (inr (ErrOther ("open " +:+ path +:+ ": no such file or directory")),
           w')
      end
  end.

(** A bucket object writer: the fields the code sets and the bytes copied
    into it so far. *)
Record Writer := mkWriter {
  SendCRC32C : bool;
  CRC32C : Z;
  body : string
}.

(** [obj.NewWriter(ctx)]; [None] stands for the nil writer. *)
Definition NewWriter (objectName : string) (w : World)
  : option Writer * World :=
  let w' := log (OpNewWriter objectName) w in
  match fault w (OpNewWriter objectName) with
  | Some _ => (None, w')
  | None => (Some (mkWriter false 0 ""), w')
  end.

(** [io.Copy(w, f)]. *)
Definition Copy (objectName : string) (wr : Writer) (data : string)
    (w : World) : (Writer + error) * World :=
  let w' := log (OpCopy objectName) w in
  match fault w (OpCopy objectName) with
  | Some msg => (inr (ErrOther msg), w')
  | None => (inl (mkWriter (SendCRC32C wr) (CRC32C wr) data), w')
  end.

(** [w.Close()]: commits the object, unless the bucket rejects it because
    the armed checksum differs from the checksum of the body. *)
Definition Close (objectName : string) (wr : Writer) (w : World)
  : option error * World :=
  let w' := log (OpClose objectName) w in
  match fault w (OpClose objectName) with
  | Some msg => (Some (ErrOther msg), w')
  | None =>
      if SendCRC32C wr && negb (crc32.Sum32 (body wr) =? CRC32C wr)
      then (Some (ErrOther "googleapi: Error 400: checksum mismatch"), w')
      else (None, put_object objectName (body wr) w')
  end.

(** *** upload (upload.go, lines 179-226) *)

(** [err == nil && attr.CRC32C == object.CRC32]. *)
Definition attrs_match (attr : Z + error) (object : RepoFile) : bool :=
  match attr with
  | inl crc32c => crc32c =? CRC32 object
  | inr _ => false
  end.

(** [err != nil && err != gcs.ErrObjectNotExist]; the error when it holds. *)
Definition attrs_other_error (attr : Z + error) : option error :=
  match attr with
  | inl _ => None
  | inr err => if is_ErrObjectNotExist err then None else Some err
  end.

Definition upload (objectName : string) (object : RepoFile)
    (srcFilePath : string) (w : World) : uploadStatus * World :=
  let '(attr, w) := Attrs objectName w in
  if attrs_match attr object
  then (mkUploadStatus (Path object) true "", w)
  else
    match attrs_other_error attr with
    | Some err => (mkUploadStatus (Path object) false (Error err), w)
    | None =>
        let '(f, w) := Open srcFilePath w in
        match f with
        | inr err => (mkUploadStatus (Path object) false (Error err), w)
        | inl data =>
            let '(wr, w) := NewWriter objectName w in
            match wr with
            | None =>
                (mkUploadStatus (Path object) false
                   "failed to create a bucket object writer", w)
            | Some wr =>
                let wr :=
                  if negb (CRC32 object =? 0)
                  then mkWriter true (CRC32 object) (body wr)
                  else wr in
                let '(copied, w) := Copy objectName wr data w in
                match copied with
                | inr err =>
                    (mkUploadStatus (Path object) false (Error err), w)
                | inl wr =>
                    let '(closed, w) := Close objectName wr w in
                    match closed with
                    | Some err =>
                        (mkUploadStatus (Path object) false (Error err), w)
                    | None => (mkUploadStatus (Path object) false "", w)
                    end
                end
            end
        end
    end.

(** *** Check (upload.go, lines 74-114)

    The workers of the pool share the input queue; each file is decided on
    its own, so the pool is modelled by one pass over the queue in arrival
    order.  The result lists the files sent to [objToSyncCh].  With several
    workers the queries and the result may come in another order: what is
    proved of [Check] is stated for the set of files and of queries. *)

Fixpoint Check (fileQueue : list RepoFile) (objectPrefix : string)
    (w : World) : run (list RepoFile) :=
  match fileQueue with
  | [] => Done [] w
  | file :: rest =>
      if negb (HasPrefix (Path file) "./objects/")
      then emit file (Check rest objectPrefix w)
      else
        match slice_from (String.length "./objects/" - 1)%nat (Path file) with
        | None => Panicked "slice bounds out of range" [] w
        | Some suffix =>
            let objectName := objectPrefix +:+ suffix in
            let '(attr, w) := Attrs objectName w in
            match attr with
            | inr _ => emit file (Check rest objectPrefix w)
            | inl crc32c =>
                if negb (CRC32 file =? crc32c)
                then emit file (Check rest objectPrefix w)
                else Check rest objectPrefix w
            end
        end
  end.

(** *** Filter (upload.go, lines 116-133) *)

Definition Filter_step (filterPrefix : string)
    (acc : list RepoFile * Z) (file : RepoFile) : list RepoFile * Z :=
  let '(objectQueue, fileNumb) := acc in
  let fileNumb := uint32 (fileNumb + 1) in
  if HasPrefix (Path file) filterPrefix
  then ((objectQueue ++ [file])%list, fileNumb)
  else (objectQueue, fileNumb).

(** Returns the contents of [objectQueue] and the value sent on
    [reportQueue]. *)
Definition Filter (fileQueue : list RepoFile) (filterPrefix : string)
  : list RepoFile * Z :=
  fold_left (Filter_step filterPrefix) fileQueue ([], 0).

(** *** Sync (upload.go, lines 135-154)

    As for [Check], the pool is one pass over the queue; a panic in a worker
    goroutine ends the process, hence the run. *)

Fixpoint Sync (objectQueue : list RepoFile) (objectPrefix srcDir : string)
    (w : World) : run (list uploadStatus) :=
  match objectQueue with
  | [] => Done [] w
  | object :: rest =>
      match slice_from (String.length "./objects/" - 1)%nat (Path object) with
      | None => Panicked "slice bounds out of range" [] w
      | Some suffix =>
          let objectName := objectPrefix +:+ suffix in
          let srcFilePath := gopath.Join srcDir (Path object) in
          let '(st, w) := upload objectName object srcFilePath w in
          emit st (Sync rest objectPrefix srcDir w)
      end
  end.

(** *** Wait (upload.go, lines 156-177)

    The [select] loop receives, in some interleaving, the file count of the
    filter, the closure of [reportQueue] (which then stays ready) and the
    upload statuses; it returns when [statusQueue] is closed, which is the
    end of the list. *)

Inductive WaitMsg :=
| recvReport (fileNumb : Z)
| recvReportClosed
| recvStatus (st : uploadStatus).

Definition Wait_step (status : SyncReport) (m : WaitMsg) : SyncReport :=
  match m with
  | recvReport fileNumb =>
      mkSyncReport fileNumb (SyncedFileNumb status)
        (UploadSyncedFileNumb status) (SyncFailedNumb status)
  | recvReportClosed => status
  | recvStatus st =>
      let synced := uint32 (SyncedFileNumb status + 1) in
      let failed :=
        if negb (String.eqb (Err st) "")
        then uint32 (SyncFailedNumb status + 1)
        else SyncFailedNumb status in
      let upload_synced :=
        if negb (Exist st)
        then uint32 (UploadSyncedFileNumb status + 1)
        else UploadSyncedFileNumb status in
      mkSyncReport (UploadedFileNumb status) synced upload_synced failed
  end.

Definition Wait (msgs : list WaitMsg) : SyncReport :=
  fold_left Wait_step msgs (mkSyncReport 0 0 0 0).

(** *** Untar (tar.go, lines 14-76) *)

Record Header := mkHeader {
  Name : string;
  Typeflag : ascii;
  PAXRecords : gmap string string
}.

Definition TypeReg : ascii := "0"%char.
Definition TypeDir : ascii := "5"%char.

(** What [tarReader.Next()] yields: an entry with the bytes that follow it,
    or a read error; the end of the list is [io.EOF]. *)
Inductive TarItem :=
| Entry (header : Header) (data : string)
| ReadError (msg : string).

(** [os.MkdirAll(d, 0755)]. *)
Definition MkdirAll (d : string) (w : World) : option error * World :=
  let w' := log (OpMkdirAll d) w in
  match fault w (OpMkdirAll d) with
  | Some msg => (Some (ErrOther msg), w')
  | None => (None, put_dir d w')
  end.

(** [os.Create(p)]: the file exists and is empty afterwards. *)
Definition Create (p : string) (w : World) : option error * World :=
  let w' := log (OpCreate p) w in
  match fault w (OpCreate p) with
  | Some msg => (Some (ErrOther msg), w')
  | None => (None, put_file p "" w')
  end.

(** [io.Copy(f, tarReader)]. *)
Definition WriteFile (p data : string) (w : World) : option error * World :=
  let w' := log (OpWriteFile p) w in
  match fault w (OpWriteFile p) with
  | Some msg => (Some (ErrOther msg), w')
  | None => (None, put_file p data w')
  end.

(** Lines 64-68: the checksum declared by the entry. *)
Definition declared_crc (header : Header) : Z :=
  let '(expectedCrc, err) :=
    strconv.ParseUint (default "" (PAXRecords header !! "FIO.ostree.CRC")) 0
  in
  let expectedCrc :=
    match err with
    | Some _ => 0
    | None => expectedCrc
    end in
  uint32 expectedCrc.

(** The deferred [recover] logs the panic and the queue is closed, so the
    run keeps what was emitted before. *)
Fixpoint Untar (tarReader : list TarItem) (dstDir : string) (w : World)
  : run (list RepoFile) :=
  match tarReader with
  | [] => Done [] w
  | ReadError msg :: _ =>
      Panicked ("failed to read an input TAR stream: " +:+ msg) [] w
  | Entry header data :: rest =>
      let name := Name header in
      if Ascii.eqb (Typeflag header) TypeDir then
        let d := gopath.Join dstDir name in
        let '(err, w) := MkdirAll d w in
        match err with
        | Some e =>
            Panicked ("failed to create a directory: " +:+ d +:+ " "
                      +:+ Error e) [] w
        | None => Untar rest dstDir w
        end
      else if Ascii.eqb (Typeflag header) TypeReg then
        let p := gopath.Join dstDir name in
        let d := gopath.Dir p in
        let '(err, w) := MkdirAll d w in
        match err with
        | Some e =>
            Panicked ("failed to create a directory: " +:+ d +:+ " "
                      +:+ Error e) [] w
        | None =>
            let '(err, w) := Create p w in
            match err with
            | Some e =>
                Panicked ("failed to create a file: " +:+ p +:+ " "
                          +:+ Error e) [] w
            | None =>
                let '(err, w) := WriteFile p data w in
                match err with
                | Some e =>
                    Panicked ("failed to copy a file: " +:+ p +:+ " "
                              +:+ Error e) [] w
                | None =>
                    emit (mkRepoFile name (declared_crc header))
                      (Untar rest dstDir w)
                end
            end
        end
      else Panicked "failed to read an input TAR stream" [] w
  end.

End oshub.

(** ** The local file system of the client *)

Module localfs.

(** A directory tree.  A file carries its bytes and whether it can be
    opened for reading. *)
#[warnings="-register-all"]
Inductive Node :=
| File (name : string) (data : string) (readable : bool)
| Dir (name : string) (children : list Node).

Definition node_name (n : Node) : string :=
  match n with
  | File name _ _ => name
  | Dir name _ => name
  end.

Definition IsDir (n : Node) : bool :=
  match n with
  | File _ _ _ => false
  | Dir _ _ => true
  end.

(** [root] lists the entries of ["/"]; [cwd] is the clean absolute path
    that relative paths start from. *)
Record FileSystem := mkFileSystem {
  root : list Node;
  cwd : string
}.

Inductive Errno := ENOENT | ENOTDIR.

Fixpoint find (name : string) (ns : list Node) : option Node :=
  match ns with
  | [] => None
  | n :: rest =>
      if String.eqb (node_name n) name then Some n else find name rest
  end.

Fixpoint lookup (comps : list string) (n : Node) : Node + Errno :=
  match comps with
  | [] => inl n
  | c :: rest =>
      match n with
      | File _ _ _ => inr ENOTDIR
      | Dir _ children =>
          match find c children with
          | None => inr ENOENT
          | Some child => lookup rest child
          end
      end
  end.

Definition absolute (fs : FileSystem) (path : string) : string :=
  if gopath.rooted path then gopath.Clean path
  else gopath.Join (cwd fs) path.

(** [os.Stat(path)] (there are no symbolic links, so it is [os.Lstat]
    too). *)
Definition Stat (fs : FileSystem) (path : string) : Node + Errno :=
  lookup (gopath.components (absolute fs path)) (Dir "" (root fs)).

(** [os.IsNotExist(err)] for the error of a [Stat]. *)
Definition IsNotExist (r : Node + Errno) : bool :=
  match r with
  | inr ENOENT => true
  | _ => false
  end.

(** The visits of [filepath.Walk] below [path], in the order of the
    directory listing: the node itself, then each child in turn. *)
Fixpoint visits (path : string) (n : Node) : list (string * Node) :=
  match n with
  | File _ _ _ => [(path, n)]
  | Dir _ children =>
      (path, n) ::
      (fix visit_all (ns : list Node) : list (string * Node) :=
         match ns with
         | [] => []
         | child :: rest =>
             (visits (gopath.Join path (node_name child)) child
              ++ visit_all rest)%list
         end) children
  end.

End localfs.

(** ** The client: pkg/fiopush *)

Module fiopush.
Import golang.
Import localfs.

Definition nl : string := String (ascii_of_nat 10) EmptyString.

(** *** The pusher and its construction (push.go, lines 21-134) *)

Record OAuth2 := mkOAuth2 {
  Server : string;
  ID : string;
  Secret : string
}.

Record OSTreeHub := mkOSTreeHub {
  URL : string;
  Factory : string;
  Auth : option OAuth2
}.

(** [url] is kept as the string given to [url.Parse]. *)
Record pusher := mkPusher {
  repo : string;
  url : string;
  hub : OSTreeHub;
  token : string
}.

Definition walkQueueSize : Z := 10000.
Definition concurrentPusherNumb : nat := 20.
Definition filesToCheckMaxNumb : Z := oshub.FilesToCheckMaxNumb.

Definition repoFileFilterIn : list string :=
  ["./objects/"; "./config"; "./refs/"].

(** *** checkRepoDir (push.go, lines 136-147): [None] is the nil error *)

Definition checkRepoDir (fs : FileSystem) (dir : string) : option string :=
  if IsNotExist (Stat fs dir)
  then Some ("The specified directory doesn't exist: " +:+ dir +:+ nl)
  else if IsNotExist (Stat fs (gopath.Join dir "config"))
  then Some ("The specified directory doesn't contain an ostree repo: "
             +:+ dir +:+ nl)
  else if IsNotExist (Stat fs (gopath.Join dir "objects"))
  then Some ("The specified directory doesn't contain ostree repo objects: "
             +:+ dir +:+ nl)
  else None.

(** [NewPusherNoAuth] (push.go, lines 87-107).  The request URL is kept as
    the string handed to [url.Parse]; the error return of [url.Parse] (lines
    102-105) is not modelled, so a real call can fail where this one
    succeeds. *)
Definition NewPusherNoAuth (fs : FileSystem) (repo hubURL factory : string)
  : pusher + string :=
  match checkRepoDir fs repo with
  | Some err => inr err
  | None =>
      if String.eqb hubURL "" then inr "URL to OSTreehub is not specified"
      else if String.eqb factory "" then inr "factory name is not specified"
      else
        let hub := mkOSTreeHub hubURL factory None in
        let reqUrl := URL hub +:+ "/v1/repos/lmp?factory=" +:+ Factory hub in
        inl (mkPusher repo reqUrl hub "")
  end.

(** [auth]: the token is fetched only when the hub has OAuth2 settings. *)
Definition auth (GetOAuthToken : OAuth2 -> string + string) (p : pusher)
  : pusher + string :=
  match Auth (hub p) with
  | None => inl p
  | Some a =>
      match GetOAuthToken a with
      | inr err => inr err
      | inl t => inl (mkPusher (repo p) (url p) (hub p) t)
      end
  end.

(** *** filterRepoFiles (push.go, lines 210-217) *)

Fixpoint filterRepoFiles_in (filters : list string) (path : string) : bool :=
  match filters with
  | [] => false
  | f :: rest =>
      if HasPrefix path f then true else filterRepoFiles_in rest path
  end.

Definition filterRepoFiles (path : string) : bool :=
  filterRepoFiles_in repoFileFilterIn path.

(** *** walkAndCrcRepo (push.go, lines 162-208) *)

(** [s[n:]] for [n <= len(s)]. *)
Fixpoint skip (n : nat) (s : string) : string :=
  match n, s with
  | O, _ => s
  | S k, String _ r => skip k r
  | S _, EmptyString => EmptyString
  end.

(** [strings.Replace(s, old, new, 1)]. *)
Fixpoint Replace1 (s old new : string) : string :=
  if HasPrefix s old then new +:+ skip (String.length old) s
  else
    match s with
    | EmptyString => EmptyString
    | String c r => String c (Replace1 r old new)
    end.

(** A walk ends normally or in [log.Fatalf], which ends the process; in
    both cases [queued] is what had been sent on the queue. *)
Inductive Walked :=
| WalkDone (queued : list oshub.RepoFile)
| WalkFatal (msg : string) (queued : list oshub.RepoFile).

Definition queued_of (r : Walked) : list oshub.RepoFile :=
  match r with
  | WalkDone q => q
  | WalkFatal _ q => q
  end.

Definition enqueue (f : oshub.RepoFile) (r : Walked) : Walked :=
  match r with
  | WalkDone q => WalkDone (f :: q)
  | WalkFatal msg q => WalkFatal msg (f :: q)
  end.

(** The walk function applied to the visits in turn.  The fatal exits
    modelled are the failed [os.Open] of a selected file and, in
    [walkAndCrcRepo], the root that cannot be examined; a directory that
    cannot be listed and a failed read (lines 171-173, 193-199) have no
    counterpart in [localfs.Node], so a real walk can be fatal where this
    one is not. *)
Fixpoint walkFn_all (dir : string) (vs : list (string * Node)) : Walked :=
  match vs with
  | [] => WalkDone []
  | (fullPath, info) :: rest =>
      if IsDir info then walkFn_all dir rest
      else
        let relPath := Replace1 fullPath dir "." in
        if negb (filterRepoFiles relPath) then walkFn_all dir rest
        else
          match info with
          | File _ data true =>
              let crc := crc32.Sum32 data in
              enqueue (oshub.mkRepoFile relPath crc) (walkFn_all dir rest)
          | _ => WalkFatal "Failed to open file" []
          end
  end.

Definition walkAndCrcRepo (fs : FileSystem) (repoDir : string) : Walked :=
  let dir := gopath.Clean repoDir in
  match Stat fs dir with
  | inr _ => WalkFatal "Failed to walk through a repo" []
  | inl n => walkFn_all dir (visits dir n)
  end.

(** *** push (push.go, lines 219-264)

    A FileBatch is the Go map [objectsToCheck].  Each of the
    [concurrentPusherNumb] workers fills its own map from the shared queue and
    hands it to [checkRepo] when the inner loop breaks or the queue is closed.
    Which worker receives which file is decided by the scheduler: [sched]
    names the receiving worker of each file in turn (worker 0 when the list
    runs out).  The result lists the batches handed to [checkRepo]. *)

Record PushState := mkPushState {
  objectsToCheck : list (gmap string Z);  (* one map per worker *)
  checked : list (gmap string Z)          (* batches sent so far *)
}.

(** Worker [i] receives [object]: lines 232-237, then 239-244 when the
    inner loop breaks. *)
Definition receive (st : PushState) (i : nat) (object : oshub.RepoFile)
  : PushState :=
  let i := (i mod concurrentPusherNumb)%nat in
  let m :=
    <[oshub.Path object := oshub.CRC32 object]>
      (default ∅ (objectsToCheck st !! i)) in
  if Z.of_nat (size m) >? filesToCheckMaxNumb
  then mkPushState (<[i := ∅]> (objectsToCheck st)) (checked st ++ [m])%list
  else mkPushState (<[i := m]> (objectsToCheck st)) (checked st).

(** The queue is closed: every worker leaves its inner loop, sends a last
    batch unless its map is empty, and finds an empty map the next time. *)
Definition drain (st : PushState) : list (gmap string Z) :=
  (checked st
   ++ List.filter (fun m => negb (size m =? 0)%nat) (objectsToCheck st))%list.

Fixpoint push_run (sched : list nat) (fileQueue : list oshub.RepoFile)
    (st : PushState) : list (gmap string Z) :=
  match fileQueue with
  | [] => drain st
  | object :: rest =>
      push_run (tl sched) rest (receive st (hd O sched) object)
  end.

Definition push (sched : list nat) (fileQueue : list oshub.RepoFile)
  : list (gmap string Z) :=
  push_run sched fileQueue
    (mkPushState (replicate concurrentPusherNumb ∅) []).

(** *** checkRepo and pushRepo: the requests (push.go, lines 266-331)

    The body of the check request is the JSON object rendered from the map;
    it is kept as the map. *)

Record Request := mkRequest {
  Method : string;
  ReqURL : string;
  Header : gmap string (list string);
  Body : gmap string Z
}.

(** [req.Header.Set(key, value)] for a key in canonical form. *)
Definition Header_Set (key value : string) (req : Request) : Request :=
  mkRequest (Method req) (ReqURL req) (<[key := [value]]> (Header req))
    (Body req).

(** [req.Header.Get(key)]. *)
Definition Header_Get (key : string) (req : Request) : string :=
  match Header req !! key with
  | Some (v :: _) => v
  | _ => ""
  end.

(** The request that [checkRepo] builds and sends. *)
Definition checkRepo_request (objs : gmap string Z) (url token : string)
  : Request :=
  let req := mkRequest "GET" url ∅ objs in
  let req := Header_Set "Content-Type" "application/json" req in
  Header_Set "Authorization" ("Bearer " +:+ token) req.

(** [checkRepo]: [Do] sends the request and decodes the response body;
    [None] is a transport or decoding failure, which is fatal. *)
Definition checkRepo (Do : Request -> option (gmap string Z))
    (objs : gmap string Z) (url token : string) : option (gmap string Z) :=
  Do (checkRepo_request objs url token).

End fiopush.

(** ** Concrete scenarios

    Worlds, queues and file systems on which the definitions above are run. *)

Module scenario.
Import golang oshub.

Definition no_fault : Op -> option string := fun _ => None.

(** The staging directory after unpacking a [config] file and one object;
    the bucket is empty and nothing fails. *)
Definition staged_world : World :=
  mkWorld ∅
    (<["/stage/config" := "[core]"]>
       (<["/stage/objects/ab/cd.file" := "payload"]> ∅))
    ∅ no_fault [].

Definition config_file : RepoFile := mkRepoFile "./config" 0.

Definition object_file : RepoFile :=
  mkRepoFile "./objects/ab/cd.file" (crc32.Sum32 "payload").

(** The same staging directory, with a bucket whose attribute query for the
    object fails with a server error. *)
Definition unavailable : string := "googleapi: Error 503: backend unavailable".

Definition flaky_fault (o : Op) : option string :=
  match o with
  | OpAttrs objectName =>
      if String.eqb objectName "repo/ab/cd.file" then Some unavailable
      else None
  | _ => None
  end.

Definition flaky_world : World :=
  mkWorld ∅ (files staged_world) ∅ flaky_fault [].

(** A bucket that already holds the object. *)
Definition synced_world : World :=
  mkWorld (<["repo/ab/cd.file" := "payload"]> ∅) (files staged_world) ∅
    no_fault [].

End scenario.

(** ** The events of the aggregator, classified

    What [oshub.Wait] receives comes from the filter and from the calls of
    [oshub.upload]; a status is classified by what it reports. *)

Module events.
Import golang oshub.

Inductive WaitInput :=
| fromFilter (fileNumb : Z)
| filterClosed
| fromUpload (objectName : string) (object : RepoFile) (srcFilePath : string)
    (w : World).

Definition deliver (i : WaitInput) : WaitMsg :=
  match i with
  | fromFilter fileNumb => recvReport fileNumb
  | filterClosed => recvReportClosed
  | fromUpload objectName object srcFilePath w =>
      recvStatus (upload objectName object srcFilePath w).1
  end.

Fixpoint statuses (msgs : list WaitMsg) : list uploadStatus :=
  match msgs with
  | [] => []
  | recvStatus st :: rest => st :: statuses rest
  | _ :: rest => statuses rest
  end.

(** The upload short-circuited on an existing object with a matching
    checksum. *)
Definition short_circuited (st : uploadStatus) : bool := Exist st.

(** The upload wrote the object and no error was reported. *)
Definition written (st : uploadStatus) : bool :=
  negb (Exist st) && String.eqb (Err st) "".

(** The upload reported an error. *)
Definition failed (st : uploadStatus) : bool := negb (String.eqb (Err st) "").

Definition count (p : uploadStatus -> bool) (msgs : list WaitMsg) : Z :=
  Z.of_nat (length (List.filter p (statuses msgs))).

(** As many events as a 32-bit counter can tell apart. *)
Definition two_pow_32 : nat := Z.to_nat (2 ^ 32).

End events.

Module scenario_events.
Import golang oshub events.

(** One call of [upload] that finds the object in the bucket. *)
Definition existing_upload : WaitInput :=
  fromUpload "repo/ab/cd.file" scenario.object_file
    "/stage/objects/ab/cd.file" scenario.synced_world.

(** A write, the count of the filter, a short-circuit and a failed query. *)
Definition three_uploads : list WaitInput :=
  [ fromUpload "repo/ab/cd.file" scenario.object_file
      "/stage/objects/ab/cd.file" scenario.staged_world;
    fromFilter 3;
    existing_upload;
    filterClosed;
    fromUpload "repo/ab/cd.file" scenario.object_file
      "/stage/objects/ab/cd.file" scenario.flaky_world ].

End scenario_events.

(** ** Unsigned decimal numerals

    What it means for a PAX record to parse as an unsigned decimal integer
    [c]: the record is a non-empty string of decimal digits, and [c] is the
    number it denotes. *)

Module numeral.

Fixpoint all_digits (s : string) : bool :=
  match s with
  | EmptyString => true
  | String c r => strconv.is_digit c && all_digits r
  end.

Definition is_decimal (s : string) : bool :=
  negb (String.eqb s "") && all_digits s.

Fixpoint value_from (n : Z) (s : string) : Z :=
  match s with
  | EmptyString => n
  | String c r => value_from (10 * n + (strconv.byte_of c - 48)) r
  end.

Definition decimal_value (s : string) : Z := value_from 0 s.

End numeral.

Module scenario_tar.
Import golang oshub.

Definition regular_headers (tarReader : list TarItem) : list Header :=
  flat_map
    (fun item =>
       match item with
       | Entry header _ =>
           if Ascii.eqb (Typeflag header) TypeDir then []
           else if Ascii.eqb (Typeflag header) TypeReg then [header]
           else []
       | ReadError _ => []
       end) tarReader.

Definition crc_record (value : string) : gmap string string :=
  <["FIO.ostree.CRC" := value]> ∅.

(** An archive with a directory and two files; the second file declares a
    checksum that does not fit in 32 bits. *)
Definition archive : list TarItem :=
  [ Entry (mkHeader "./objects/ab" TypeDir ∅) "";
    Entry (mkHeader "./objects/ab/cd.file" TypeReg (crc_record "305419896"))
      "payload";
    Entry (mkHeader "./objects/ab/ef.file" TypeReg (crc_record "4294967296"))
      "other" ].

Definition empty_stage : World := mkWorld ∅ ∅ ∅ scenario.no_fault [].

End scenario_tar.

Module scenario_client.
Import golang localfs fiopush.

(** A repository at [/repo], with entries that the walker must leave out. *)
Definition repo_fs : FileSystem :=
  mkFileSystem
    [ Dir "repo"
        [ File "README" "notes" true;
          File "config" "[core]" true;
          Dir "objects" [ Dir "ab" [ File "cd.file" "payload" true ] ];
          Dir "refs" [ Dir "heads" [ File "main" "abcd" true ] ];
          Dir "tmp" [ File "scratch" "x" true ] ] ]
    "/".

(** A directory at [/odd] whose [config] is a directory and whose [objects]
    is a regular file. *)
Definition odd_fs : FileSystem :=
  mkFileSystem
    [ Dir "odd" [ Dir "config" []; File "objects" "" true ] ]
    "/".

(** [n] files with distinct paths. *)
Definition numbered_files (n : nat) : list oshub.RepoFile :=
  map (fun i : nat =>
         oshub.mkRepoFile ("./objects/" +:+ pretty i) (Z.of_nat i))
    (seq 0 n).

(** The visits of the walk from [repoDir]. *)
Definition walk_visits (fs : FileSystem) (repoDir : string)
  : list (string * Node) :=
  match Stat fs (gopath.Clean repoDir) with
  | inl n => visits (gopath.Clean repoDir) n
  | inr _ => []
  end.

End scenario_client.

Module invariants.
Import fiopush.

(** What holds between two receptions: the batches already sent have between
    1 and [filesToCheckMaxNumb + 1] entries, the maps being filled have at
    most [filesToCheckMaxNumb]. *)
Definition batch_invariant (st : PushState) : Prop :=
  Forall (fun m => 1 <= Z.of_nat (size m) <= filesToCheckMaxNumb + 1)
    (checked st)
  /\ Forall (fun m => Z.of_nat (size m) <= filesToCheckMaxNumb)
       (objectsToCheck st).

End invariants.

(** ** Names derived by the hub *)

Module naming.
Import golang.

(** The bucket key that [oshub.Check] and [oshub.Sync] derive from a path:
    the prefix, then the path from byte 9 on. *)
Definition objectName_of (objectPrefix path : string) : string :=
  objectPrefix +:+ default "" (slice_from 9 path).

End naming.

(** ** strconv.FormatUint, base 10 *)

Module strconv_format.

Definition digit_char (d : Z) : ascii := ascii_of_nat (48 + Z.to_nat d).

(** Digits are produced from the least significant one. *)
Fixpoint FormatUint_go (fuel : nat) (n : Z) (acc : string) : string :=
  match fuel with
  | O => acc
  | S k =>
      let acc := String (digit_char (n mod 10)) acc in
      if n <? 10 then acc else FormatUint_go k (n / 10) acc
  end.

(** [strconv.FormatUint(n, 10)]: a [uint64] has at most 20 digits. *)
Definition FormatUint (n : Z) : string := FormatUint_go 20 n "".

End strconv_format.

(** ** The archive writer: oshub.Tar (tar.go, lines 78-129) *)

Module oshub_tar.
Import golang oshub localfs.

Definition uint64 (x : Z) : Z := x mod 2 ^ 64.
Definition int64 (x : Z) : Z := (x + 2 ^ 63) mod 2 ^ 64 - 2 ^ 63.

(** Line 103: the PAX records of every header. *)
Definition crc_records (crc : Z) : gmap string string :=
  <["FIO.ostree.CRC" := strconv_format.FormatUint (strconv.uint64 crc)]> ∅.

(** [files] lists the entries of the Go map in the order in which the
    [range] loop meets them.  The result is the stream written to the pipe and
    the report sent on the channel; a panic in the goroutine ends the process,
    and then there is no report.  The panic modelled is that of [os.Open]
    (lines 88-91); [f.Stat], [tar.FileInfoHeader], [tw.WriteHeader] and
    [io.Copy] (lines 92-116) are taken to succeed once the file is open. *)
Fixpoint Tar_loop (fs : FileSystem) (repoDir : string)
    (files : list (string * Z)) (sr : SendReport)
  : list TarItem * option SendReport :=
  match files with
  | [] => ([], Some sr)
  | (file, crc) :: rest =>
      match Stat fs (gopath.Join repoDir file) with
      | inr _ => ([], None)
      | inl (File _ _ false) => ([], None)
      | inl (Dir _ _) =>
          let hdr := mkHeader file TypeDir (crc_records crc) in
          let '(stream, report) := Tar_loop fs repoDir rest sr in
          (Entry hdr "" :: stream, report)
      | inl (File _ data true) =>
          let hdr := mkHeader file TypeReg (crc_records crc) in
          let w := Z.of_nat (String.length data) in
          let sr :=
            mkSendReport
              (uint64 (FileNumb sr + 1))
              (if HasPrefix file "./objects"
               then uint64 (ObjNumb sr + 1) else ObjNumb sr)
              (int64 (Bytes sr + w)) in
          let '(stream, report) := Tar_loop fs repoDir rest sr in
          (Entry hdr data :: stream, report)
      end
  end.

Definition Tar (fs : FileSystem) (repoDir : string)
    (files : list (string * Z)) : list TarItem * option SendReport :=
  Tar_loop fs repoDir files (mkSendReport 0 0 0).

(** The entries of the map that are regular files of the repository. *)
Definition regular_entries (fs : FileSystem) (repoDir : string)
    (files : list (string * Z)) : list (string * Z) :=
  List.filter
    (fun e => match Stat fs (gopath.Join repoDir e.1) with
              | inl (File _ _ _) => true
              | _ => false
              end) files.

(** The bytes of the regular file that [Tar] reads for a map entry. *)
Definition payload (fs : FileSystem) (repoDir file : string) : string :=
  match Stat fs (gopath.Join repoDir file) with
  | inl (File _ data _) => data
  | _ => ""
  end.

(** The staging directory after unpacking [entries] into [dstDir]. *)
Definition staged (fs : FileSystem) (repoDir dstDir : string)
    (entries : list (string * Z)) (files : gmap string string)
  : gmap string string :=
  fold_left
    (fun m e => <[gopath.Join dstDir e.1 := payload fs repoDir e.1]> m)
    entries files.

(** The number of payload bytes of [entries]. *)
Definition sizes (fs : FileSystem) (repoDir : string)
    (entries : list (string * Z)) : Z :=
  fold_right
    (fun e n => Z.of_nat (String.length (payload fs repoDir e.1)) + n)
    0 entries.

(** [file] cannot be opened for reading below [repoDir]. *)
Definition cannot_open (fs : FileSystem) (repoDir : string)
    (e : string * Z) : bool :=
  match Stat fs (gopath.Join repoDir e.1) with
  | inl (File _ _ true) => false
  | inl (Dir _ _) => false
  | _ => true
  end.

(** The name of an item of the stream. *)
Definition item_name (item : TarItem) : string :=
  match item with
  | Entry header _ => Name header
  | ReadError _ => ""
  end.

End oshub_tar.

Module scenario_push.
Import golang oshub localfs.

(** A MissingSet over the repository of [scenario_client.repo_fs]: two
    files, a directory, and a path named like an object directory. *)
Definition missing : list (string * Z) :=
  [ ("./objects/ab/cd.file", crc32.Sum32 "payload");
    ("./refs", 0);
    ("./config", crc32.Sum32 "[core]") ].

End scenario_push.

Module coverage.
Import fiopush.

(** Key [k] is in a batch already sent, or in the map of some worker. *)
Definition holds (st : PushState) (k : string) (v : Z) : Prop :=
  (exists m, In m (checked st) /\ m !! k = Some v)
  \/ (exists m, In m (objectsToCheck st) /\ m !! k = Some v).

End coverage.

(** ** The collector of the client: wait (push.go, lines 335-371) *)

Module collector.
Import golang oshub.

Record Report := mkReport {
  Checked : Z;  (* uint *)
  Sent : SendReport;
  Synced : SyncReport
}.

(** What the [select] loop receives, in some interleaving: a value or the
    closure of the check queue and of the send queue (a closed queue stays
    ready), and the values of the sync queue; the closure of the sync queue,
    on which [wait] returns, is the end of the list.  A send report may be
    the nil pointer. *)
Inductive StatusMsg :=
| gotCheck (checked : Z)
| checkClosed
| gotSend (sendReport : option SendReport)
| sendClosed
| gotSync (syncReport : SyncReport).

Definition uint (x : Z) : Z := x mod 2 ^ 64.
Definition int64 (x : Z) : Z := (x + 2 ^ 63) mod 2 ^ 64 - 2 ^ 63.

Definition wait_step (total : Report) (m : StatusMsg) : Report :=
  match m with
  | gotCheck checked =>
      mkReport (uint (Checked total + checked)) (Sent total) (Synced total)
  | checkClosed => total
  | gotSend None => total
  | sendClosed => total
  | gotSend (Some sendReport) =>
      mkReport (Checked total)
        (mkSendReport
           (uint (FileNumb (Sent total) + FileNumb sendReport))
           (uint (ObjNumb (Sent total) + ObjNumb sendReport))
           (int64 (Bytes (Sent total) + Bytes sendReport)))
        (Synced total)
  | gotSync syncReport =>
      mkReport (Checked total) (Sent total)
        (mkSyncReport
           (uint32 (UploadedFileNumb (Synced total)
                    + UploadedFileNumb syncReport))
           (uint32 (SyncedFileNumb (Synced total)
                    + SyncedFileNumb syncReport))
           (uint32 (UploadSyncedFileNumb (Synced total)
                    + UploadSyncedFileNumb syncReport))
           (uint32 (SyncFailedNumb (Synced total)
                    + SyncFailedNumb syncReport)))
  end.

Definition wait (msgs : list StatusMsg) : Report :=
  fold_left wait_step msgs
    (mkReport 0 (mkSendReport 0 0 0) (mkSyncReport 0 0 0 0)).

(** The sum of the batch sizes received on the check queue. *)
Definition checked_sum (msgs : list StatusMsg) : Z :=
  fold_right
    (fun m n => match m with gotCheck c => c + n | _ => n end) 0 msgs.

End collector.

Module accounting.
Import fiopush.

(** The number of entries in a list of maps. *)
Definition entries (l : list (gmap string Z)) : nat := list_sum (map size l).

(** What the workers send on the check queue: the size of each batch. *)
Definition check_messages (batches : list (gmap string Z))
  : list collector.StatusMsg :=
  map (fun m => collector.gotCheck (Z.of_nat (size m))) batches.

End accounting.

(** ** What the walker selects *)

Module walking.
Import golang localfs fiopush.

(** The visit is a file whose root-relative path passes the filter. *)
Definition selected (dir : string) (v : string * Node) : bool :=
  negb (IsDir v.2) && filterRepoFiles (Replace1 v.1 dir ".").

Definition readable_file (v : string * Node) : bool :=
  match v.2 with
  | File _ _ true => true
  | _ => false
  end.

(** The RepoFile queued for a visit. *)
Definition repo_file (dir : string) (v : string * Node) : oshub.RepoFile :=
  oshub.mkRepoFile (Replace1 v.1 dir ".")
    (crc32.Sum32 match v.2 with File _ data _ => data | Dir _ _ => "" end).

(** The visits before the first one that cannot be read. *)
Fixpoint readable_prefix (vs : list (string * Node))
  : list (string * Node) :=
  match vs with
  | [] => []
  | v :: rest => if readable_file v then v :: readable_prefix rest else []
  end.

Definition is_done (r : Walked) : bool :=
  match r with
  | WalkDone _ => true
  | WalkFatal _ _ => false
  end.

End walking.

(** ** The credential flow (tar.go, lines 202-216 of the source tree: the
    file that holds [ExtractUrlAndFactory]; push.go, lines 72-85) *)

Module credentials.
Import golang fiopush.

Record OSTreeInfo := mkOSTreeInfo {
  InfoAuth : OAuth2;
  NoAuth : bool;
  ServerURL : string
}.

(** The fields of a parsed [*url.URL] that the code reads. *)
Record ParsedURL := mkParsedURL {
  Scheme : string;
  Host : string;
  UrlPath : string
}.

Inductive Extracted :=
| ExtractOk (hub : OSTreeHub)
| ExtractErr (msg : string)
| ExtractPanic.

(** [ParseCredArchive] reads the archive and [url_Parse] is [url.Parse];
    both are taken as given.  [strings.Split(url.Path, "/")] is
    [gopath.split], and indexing the slice at 3 panics when it is shorter. *)
Definition ExtractUrlAndFactory
    (ParseCredArchive : string -> OSTreeInfo + string)
    (url_Parse : string -> ParsedURL + string) (credZip : string)
  : Extracted :=
  match ParseCredArchive credZip with
  | inr err => ExtractErr err
  | inl info =>
      match url_Parse (ServerURL info) with
      | inr err =>
          ExtractErr ("Failed to parse the server  URL: " +:+ err +:+ nl)
      | inl url =>
          let pathElements := gopath.split (UrlPath url) in
          match nth_error pathElements 3 with
          | None => ExtractPanic
          | Some factory =>
              ExtractOk
                (mkOSTreeHub (Scheme url +:+ "://" +:+ Host url) factory
                   (Some (InfoAuth info)))
          end
      end
  end.

(** [NewPusher]: the pre-flight check comes first. *)
Definition NewPusher (fs : localfs.FileSystem)
    (ParseCredArchive : string -> OSTreeInfo + string)
    (url_Parse : string -> ParsedURL + string) (repo credFile : string)
  : option (pusher + string) :=
  match checkRepoDir fs repo with
  | Some err => Some (inr err)
  | None =>
      match ExtractUrlAndFactory ParseCredArchive url_Parse credFile with
      | ExtractErr err => Some (inr err)
      | ExtractPanic => None
      | ExtractOk hub =>
          let reqUrl :=
            URL hub +:+ "/ota/ostreehub/" +:+ Factory hub
            +:+ "/v1/repos/lmp" in
          Some (inl (mkPusher repo reqUrl hub ""))
      end
  end.

Fixpoint count_slash (s : string) : nat :=
  match s with
  | EmptyString => O
  | String c r =>
      if Ascii.eqb c gopath.slash then S (count_slash r) else count_slash r
  end.

Definition slash_free (s : string) : bool := (count_slash s =? 0)%nat.

End credentials.

Module cleaning.
Import credentials.

(** A component kept by [gopath.Clean]: not empty, not [.], and without
    slash. *)
Definition kept (c : string) : Prop :=
  c <> "" /\ c <> "." /\ slash_free c = true.

End cleaning.

Module staging.
Import golang oshub.


(** The bucket holds, under the key of [f], the staged bytes of [f] or an
    object with the checksum declared for [f]. *)
Definition synced (objectPrefix srcDir : string) (staged : gmap string string)
    (b : gmap string string) (f : RepoFile) : Prop :=
  exists stored data,
    staged !! gopath.Join srcDir (Path f) = Some data
    /\ b !! naming.objectName_of objectPrefix (Path f) = Some stored
    /\ (stored = data \/ crc32.Sum32 stored = CRC32 f).

End staging.

(** * Properties *)

(** ** The library models on known values *)

Section LibraryExamples.

(** The check value of CRC-32C. *)
Example crc32_check_value : crc32.Sum32 "123456789" = 0xE3069283.
Proof. vm_compute. reflexivity. Qed.

Example gopath_examples :
  gopath.Join "/srv/stage" "./objects/ab/cd" = "/srv/stage/objects/ab/cd"
  /\ gopath.Join "." "objects" = "objects"
  /\ gopath.Join "/a/b/../c/" "config" = "/a/c/config"
  /\ gopath.Clean "" = "."
  /\ gopath.Clean "/.." = "/"
  /\ gopath.Dir "/srv/stage/objects/ab/cd" = "/srv/stage/objects/ab"
  /\ gopath.Dir "cd" = ".".
Proof. vm_compute. repeat split; reflexivity. Qed.

Example ParseUint_examples :
  strconv.ParseUint "305419896" 0 = (305419896, None)
  /\ strconv.ParseUint "0012" 0 = (12, None)
  /\ strconv.ParseUint "" 0 = (0, Some strconv.ErrSyntax)
  /\ strconv.ParseUint "12a" 0 = (0, Some strconv.ErrSyntax)
  /\ strconv.ParseUint "+1" 0 = (0, Some strconv.ErrSyntax)
  /\ strconv.ParseUint "18446744073709551615" 0
     = (18446744073709551615, None)
  /\ strconv.ParseUint "18446744073709551616" 0
     = (18446744073709551615, Some strconv.ErrRange)
  /\ strconv.ParseUint "4294967296" 32
     = (4294967295, Some strconv.ErrRange).
Proof. vm_compute. repeat split; reflexivity. Qed.

End LibraryExamples.

(** ** Byte strings *)

Section StringFacts.
Import golang.

Lemma append_String (c : ascii) (p r : string) :
  String c p +:+ r = String c (p +:+ r).
Proof. reflexivity. Qed.

Lemma HasPrefix_app (s p : string) :
  HasPrefix s p = true <-> exists r, s = p +:+ r.
Proof.
  unfold HasPrefix. revert s. induction p as [|c p IH]; intros s; simpl.
  - split; [intros _; exists s; reflexivity | intros _; destruct s; reflexivity].
  - destruct s as [|d s]; simpl.
    + split; [discriminate | intros [r Hr]; rewrite append_String in Hr; discriminate].
    + destruct (ascii_dec c d) as [->|Hne].
      * rewrite IH.
        split; intros [r Hr]; exists r; rewrite append_String in *; congruence.
      * split; [discriminate|].
        intros [r Hr]; rewrite append_String in Hr; congruence.
Qed.





End StringFacts.

(** ** The hub *)

Section HubFacts.
Import golang oshub.

Lemma panicked_emit {A} (x : A) (r : run (list A)) :
  panicked (emit x r) = panicked r.
Proof. destruct r; reflexivity. Qed.

Lemma output_emit {A} (x : A) (r : run (list A)) :
  output (emit x r) = x :: output r.
Proof. destruct r; reflexivity. Qed.

(** The filter in closed form: the queue keeps the order of arrival. *)
Lemma Filter_fold (filterPrefix : string) (fileQueue acc : list RepoFile)
    (n : Z) :
  fold_left (Filter_step filterPrefix) fileQueue (acc, n)
  = ((acc ++ List.filter (fun f => HasPrefix (Path f) filterPrefix) fileQueue)%list,
     fold_left (fun k _ => uint32 (k + 1)) fileQueue n).
Proof.
  revert acc n. induction fileQueue as [|f q IH]; intros acc n; simpl.
  - rewrite app_nil_r. reflexivity.
  - destruct (HasPrefix (Path f) filterPrefix); rewrite IH; [|reflexivity].
    rewrite <- app_assoc. reflexivity.
Qed.

Lemma uint32_add_l (a b : Z) : uint32 (uint32 a + b) = uint32 (a + b).
Proof. unfold uint32. apply Zplus_mod_idemp_l. Qed.

Lemma uint32_small (a : Z) : 0 <= a < 2 ^ 32 -> uint32 a = a.
Proof. intros H. unfold uint32. apply Z.mod_small, H. Qed.

Lemma uint32_count (q : list RepoFile) (n : Z) :
  fold_left (fun k _ => uint32 (k + 1)) q (uint32 n)
  = uint32 (n + Z.of_nat (length q)).
Proof.
  revert n. induction q as [|f q IH]; intros n.
  - simpl. f_equal. lia.
  - cbn [fold_left length]. rewrite uint32_add_l, IH. f_equal. lia.
Qed.

Lemma Filter_closed_form (fileQueue : list RepoFile) (filterPrefix : string) :
  Filter fileQueue filterPrefix
  = (List.filter (fun f => HasPrefix (Path f) filterPrefix) fileQueue,
     uint32 (Z.of_nat (length fileQueue))).
Proof.
  unfold Filter. rewrite Filter_fold. simpl. f_equal.
  change 0 with (uint32 0) at 1. rewrite uint32_count. reflexivity.
Qed.

(** Case analysis over every branch of [upload]. *)
Ltac upload_cases :=
  unfold upload, Attrs, Open, NewWriter, Copy, Close,
    attrs_match, attrs_other_error;
  repeat match goal with
    | |- context [match fault ?w ?o with _ => _ end] =>
        destruct (fault w o) eqn:?
    | |- context [match bucket ?w !! ?k with _ => _ end] =>
        destruct (bucket w !! k) eqn:?
    | |- context [match files ?w !! ?k with _ => _ end] =>
        destruct (files w !! k) eqn:?
    | |- context [if ?b then _ else _] => destruct b eqn:?
    end;
  cbn [fst snd Object Exist Err is_ErrObjectNotExist Error log bucket files
       dirs fault trace put_object negb] in *.

Lemma upload_Object (objectName : string) (object : RepoFile)
    (srcFilePath : string) (w : World) :
  Object (upload objectName object srcFilePath w).1 = Path object.
Proof. upload_cases; reflexivity. Qed.

(** A status that reports an existing object carries no error. *)
Lemma upload_Exist_no_Err (objectName : string) (object : RepoFile)
    (srcFilePath : string) (w : World) :
  Exist (upload objectName object srcFilePath w).1 = true ->
  Err (upload objectName object srcFilePath w).1 = "".
Proof. upload_cases; congruence. Qed.

(** [upload] reports an existing object exactly when the attribute query
    succeeded and returned the declared checksum. *)
Lemma upload_Exist_iff (objectName : string) (object : RepoFile)
    (srcFilePath : string) (w : World) :
  Exist (upload objectName object srcFilePath w).1 = true <->
  (Attrs objectName w).1 = inl (CRC32 object).
Proof.
  upload_cases; split; intros H; try discriminate; try reflexivity;
    try (injection H as H; lia); f_equal; lia.
Qed.

(** Every status of [Sync] reports the path of a file of its queue. *)
Lemma Sync_statuses (objectQueue : list RepoFile) (objectPrefix srcDir : string)
    (w : World) :
  Forall (fun st => exists f, In f objectQueue /\ Object st = Path f)
    (output (Sync objectQueue objectPrefix srcDir w)).
Proof.
  revert w. induction objectQueue as [|object rest IH]; intros w.
  - constructor.
  - cbn [Sync].
    destruct (slice_from _ (Path object)) as [suffix|]; [|constructor].
    destruct (upload _ _ _ w) as [st w'] eqn:Hup.
    rewrite output_emit. constructor.
    + exists object. split; [left; reflexivity|].
      match type of Hup with
      | upload ?n ?o ?p ?w0 = _ => pose proof (upload_Object n o p w0) as H
      end.
      rewrite Hup in H. exact H.
    + eapply Forall_impl; [apply IH|].
      intros st' [f [Hf Hst]]. exists f. split; [right; exact Hf | exact Hst].
Qed.


End HubFacts.

(** ** Sync and Filter *)

Section SyncFilter.
Import golang oshub.



(** C3 (as the code has it): every entry is counted in the forwarded-file
    total, but only the entries whose path starts with the filter prefix are
    forwarded to [Sync]; the other entries are dropped by the filter, and no
    upload status is ever produced for them. *)
Theorem Filter_forwards_only_prefixed (fileQueue : list RepoFile)
    (filterPrefix objectPrefix srcDir : string) (w : World) :
  (Filter fileQueue filterPrefix).1
  = List.filter (fun f => HasPrefix (Path f) filterPrefix) fileQueue
  /\ (Filter fileQueue filterPrefix).2 = uint32 (Z.of_nat (length fileQueue))
  /\ Forall (fun st => HasPrefix (Object st) filterPrefix = true)
       (output (Sync (Filter fileQueue filterPrefix).1 objectPrefix srcDir w)).
Proof.
  rewrite Filter_closed_form. cbn [fst snd]. do 2 (split; [reflexivity|]).
  eapply Forall_impl; [apply Sync_statuses|].
  intros st [f [Hf ->]]. apply filter_In in Hf. apply Hf.
Qed.

(** C3, the claim as stated fails: a [./config] entry is counted, but the
    filter does not forward it; [Sync] produces no status, performs no
    operation and leaves the bucket as it was. *)
Lemma Filter_discards_config :
  let fileQueue := [scenario.config_file] in
  let r := Sync (Filter fileQueue "./objects/").1 "repo" "/stage"
             scenario.staged_world in
  HasPrefix (Path scenario.config_file) "./objects/" = false
  /\ (Filter fileQueue "./objects/").2 = 1
  /\ (Filter fileQueue "./objects/").1 = []
  /\ output r = []
  /\ final_world r = scenario.staged_world
  /\ bucket (final_world r) !! "repo/config" = None
  /\ bucket (final_world r) !! "config" = None.
Proof. vm_compute. repeat split; reflexivity. Qed.

End SyncFilter.

(** ** upload *)

Section Upload.
Import golang oshub.

(** C4 (as the code has it): when the attribute query fails with an error
    other than not-found, [upload] returns at once with that error in the
    status; it neither opens the staged file nor writes to the bucket. *)
Theorem upload_aborts_on_query_error (objectName : string) (object : RepoFile)
    (srcFilePath : string) (w : World) (msg : string) :
  (Attrs objectName w).1 = inr (ErrOther msg) ->
  upload objectName object srcFilePath w
  = (mkUploadStatus (Path object) false msg, log (OpAttrs objectName) w)
  /\ bucket (upload objectName object srcFilePath w).2 = bucket w
  /\ trace (upload objectName object srcFilePath w).2
     = (trace w ++ [OpAttrs objectName])%list.
Proof.
  intros H.
  assert (upload objectName object srcFilePath w
          = (mkUploadStatus (Path object) false msg,
             log (OpAttrs objectName) w)) as ->.
  { revert H. unfold upload, Attrs.
    destruct (fault w (OpAttrs objectName)) as [m|].
    - cbn. intros [= ->]. reflexivity.
    - destruct (bucket w !! objectName); cbn; discriminate. }
  repeat split.
Qed.

Lemma upload_aborts_on_query_error_witness :
  (Attrs "repo/ab/cd.file" scenario.flaky_world).1
  = inr (ErrOther scenario.unavailable)
  /\ upload "repo/ab/cd.file" scenario.object_file
       "/stage/objects/ab/cd.file" scenario.flaky_world
     = (mkUploadStatus "./objects/ab/cd.file" false scenario.unavailable,
        log (OpAttrs "repo/ab/cd.file") scenario.flaky_world).
Proof.
  split; [reflexivity|].
  apply (upload_aborts_on_query_error "repo/ab/cd.file" scenario.object_file
           "/stage/objects/ab/cd.file" scenario.flaky_world
           scenario.unavailable).
  reflexivity.
Defined.

(** C4, the claim as stated fails: the staged file is there and could be
    uploaded, yet after a failed attribute query the worker has not opened
    it and the bucket holds no object. *)
Lemma upload_query_error_skips_write :
  let r := upload "repo/ab/cd.file" scenario.object_file
             "/stage/objects/ab/cd.file" scenario.flaky_world in
  (Attrs "repo/ab/cd.file" scenario.flaky_world).1
  = inr (ErrOther scenario.unavailable)
  /\ files scenario.flaky_world !! "/stage/objects/ab/cd.file"
     = Some "payload"
  /\ r.1 = mkUploadStatus "./objects/ab/cd.file" false scenario.unavailable
  /\ trace r.2 = [OpAttrs "repo/ab/cd.file"]
  /\ ~ In (OpOpen "/stage/objects/ab/cd.file") (trace r.2)
  /\ bucket r.2 !! "repo/ab/cd.file" = None.
Proof.
  vm_compute. repeat split; try reflexivity.
  intros [H|[]]. discriminate.
Qed.

Example upload_staged_world :
  upload "repo/ab/cd.file" scenario.object_file "/stage/objects/ab/cd.file"
    scenario.staged_world
  = (mkUploadStatus "./objects/ab/cd.file" false "",
     mkWorld (<["repo/ab/cd.file" := "payload"]> ∅)
       (files scenario.staged_world) ∅ scenario.no_fault
       [ OpAttrs "repo/ab/cd.file";
         OpOpen "/stage/objects/ab/cd.file";
         OpNewWriter "repo/ab/cd.file";
         OpCopy "repo/ab/cd.file";
         OpClose "repo/ab/cd.file" ])
  /\ upload "repo/ab/cd.file" scenario.object_file
       "/stage/objects/ab/cd.file" scenario.synced_world
     = (mkUploadStatus "./objects/ab/cd.file" true "",
        log (OpAttrs "repo/ab/cd.file") scenario.synced_world).
Proof. vm_compute. split; reflexivity. Qed.

End Upload.

(** ** Check *)

Section CheckFacts.
Import golang oshub.







Example Check_synced_world :
  Check [scenario.config_file; scenario.object_file] "repo"
    scenario.synced_world
  = Done [scenario.config_file]
      (log (OpAttrs "repo/ab/cd.file") scenario.synced_world)
  /\ output (Check [scenario.config_file; scenario.object_file] "repo"
               scenario.staged_world)
     = [scenario.config_file; scenario.object_file].
Proof. vm_compute. split; reflexivity. Qed.


End CheckFacts.

(** ** Wait: the SyncReport *)

Section WaitFacts.
Import golang oshub events.

Lemma count_cons_status (p : uploadStatus -> bool) (st : uploadStatus)
    (msgs : list WaitMsg) :
  count p (recvStatus st :: msgs) = (if p st then 1 else 0) + count p msgs.
Proof.
  unfold count. cbn [statuses List.filter].
  destruct (p st); cbn [length]; lia.
Qed.

Lemma count_nonneg (p : uploadStatus -> bool) (msgs : list WaitMsg) :
  0 <= count p msgs.
Proof. unfold count. lia. Qed.

Lemma count_le_all (p : uploadStatus -> bool) (msgs : list WaitMsg) :
  count p msgs <= count (fun _ => true) msgs.
Proof.
  induction msgs as [|[n| |st] rest IH]; try exact IH.
  - reflexivity.
  - rewrite !count_cons_status. destruct (p st); lia.
Qed.

(** The three counters of the fold, each modulo 2^32. *)
Lemma Wait_fold (msgs : list WaitMsg) (s : SyncReport) (a b c : Z) :
  SyncedFileNumb s = uint32 a ->
  SyncFailedNumb s = uint32 b ->
  UploadSyncedFileNumb s = uint32 c ->
  let r := fold_left Wait_step msgs s in
  SyncedFileNumb r = uint32 (a + count (fun _ => true) msgs)
  /\ SyncFailedNumb r = uint32 (b + count failed msgs)
  /\ UploadSyncedFileNumb r
     = uint32 (c + count (fun st => negb (short_circuited st)) msgs).
Proof.
  revert s a b c.
  induction msgs as [|m rest IH]; intros s a b c Ha Hb Hc; cbv zeta.
  - cbn [fold_left]. unfold count. cbn. rewrite !Z.add_0_r. auto.
  - cbn [fold_left]. destruct m as [n| |st].
    + apply (IH _ a b c); cbn; assumption.
    + apply (IH _ a b c); cbn; assumption.
    + rewrite !count_cons_status.
      specialize (IH (Wait_step s (recvStatus st))
                    (a + 1)
                    (b + (if failed st then 1 else 0))
                    (c + (if negb (short_circuited st) then 1 else 0))).
      cbv zeta in IH. rewrite !Z.add_assoc. apply IH.
      * cbn. rewrite Ha. apply uint32_add_l.
      * cbn. unfold failed. destruct (negb (Err st =? "")%string).
        -- rewrite Hb. apply uint32_add_l.
        -- rewrite Hb, Z.add_0_r. reflexivity.
      * cbn. unfold short_circuited. destruct (negb (Exist st)).
        -- rewrite Hc. apply uint32_add_l.
        -- rewrite Hc, Z.add_0_r. reflexivity.
Qed.

Lemma Wait_counters (msgs : list WaitMsg) :
  SyncedFileNumb (Wait msgs) = uint32 (count (fun _ => true) msgs)
  /\ SyncFailedNumb (Wait msgs) = uint32 (count failed msgs)
  /\ UploadSyncedFileNumb (Wait msgs)
     = uint32 (count (fun st => negb (short_circuited st)) msgs).
Proof. apply (Wait_fold msgs (mkSyncReport 0 0 0 0) 0 0 0); reflexivity. Qed.

(** Every status that [upload] delivers is exactly one of: failed,
    short-circuited, written. *)
Lemma delivered_partition (inputs : list WaitInput) :
  count (fun _ => true) (map deliver inputs)
  = count failed (map deliver inputs)
    + count short_circuited (map deliver inputs)
    + count written (map deliver inputs).
Proof.
  induction inputs as [|[n| |objectName object srcFilePath w] rest IH];
    try exact IH.
  - reflexivity.
  - cbn [map deliver]. rewrite !count_cons_status, IH.
    pose proof (upload_Exist_no_Err objectName object srcFilePath w) as Hinv.
    unfold failed, short_circuited, written.
    destruct (Exist (upload objectName object srcFilePath w).1).
    + rewrite Hinv by reflexivity. cbn. lia.
    + destruct (Err (upload objectName object srcFilePath w).1 =? "")%string;
        cbn; lia.
Qed.

(** C5 (as the code has it): the counters are 32-bit.  For the statuses that
    the upload workers deliver, [synced] equals [sync_failed] plus the number
    of short-circuits plus the number of successful writes, and
    [upload_synced] equals the number of statuses that did not short-circuit,
    both modulo 2^32; the equalities are exact for fewer than 2^32
    statuses. *)
Theorem Wait_report_identity (inputs : list WaitInput) :
  let msgs := map deliver inputs in
  let r := Wait msgs in
  SyncedFileNumb r
  = uint32 (SyncFailedNumb r + count short_circuited msgs + count written msgs)
  /\ UploadSyncedFileNumb r
     = uint32 (count (fun st => negb (short_circuited st)) msgs)
  /\ (count (fun _ => true) msgs < 2 ^ 32 ->
      SyncedFileNumb r
      = SyncFailedNumb r + count short_circuited msgs + count written msgs
      /\ UploadSyncedFileNumb r
         = count (fun st => negb (short_circuited st)) msgs).
Proof.
  cbv zeta.
  destruct (Wait_counters (map deliver inputs)) as [Hs [Hf Hu]].
  pose proof (delivered_partition inputs) as Hpart.
  split; [|split].
  - rewrite Hs, Hf, <- !Z.add_assoc, uint32_add_l, !Z.add_assoc.
    f_equal. exact Hpart.
  - exact Hu.
  - intros Hlt.
    pose proof (count_le_all failed (map deliver inputs)).
    pose proof (count_le_all (fun st => negb (short_circuited st))
                  (map deliver inputs)).
    pose proof (count_nonneg failed (map deliver inputs)).
    pose proof (count_nonneg (fun st => negb (short_circuited st))
                  (map deliver inputs)).
    pose proof (count_nonneg (fun _ => true) (map deliver inputs)).
    rewrite Hs, Hf, Hu, !uint32_small by lia.
    split; [exact Hpart | reflexivity].
Qed.

End WaitFacts.

Section WaitExamples.
Import golang oshub events.

Example Wait_three_uploads :
  map deliver scenario_events.three_uploads
  = [ recvStatus (mkUploadStatus "./objects/ab/cd.file" false "");
      recvReport 3;
      recvStatus (mkUploadStatus "./objects/ab/cd.file" true "");
      recvReportClosed;
      recvStatus (mkUploadStatus "./objects/ab/cd.file" false
                    scenario.unavailable) ]
  /\ Wait (map deliver scenario_events.three_uploads) = mkSyncReport 3 3 2 1.
Proof. vm_compute. split; reflexivity. Qed.

Lemma Wait_report_identity_witness :
  let msgs := map deliver scenario_events.three_uploads in
  let r := Wait msgs in
  count (fun _ => true) msgs < 2 ^ 32
  /\ SyncedFileNumb r
     = SyncFailedNumb r + count short_circuited msgs + count written msgs
  /\ UploadSyncedFileNumb r
     = count (fun st => negb (short_circuited st)) msgs.
Proof.
  cbv zeta. split; [vm_compute; reflexivity|].
  apply (Wait_report_identity scenario_events.three_uploads).
  vm_compute. reflexivity.
Defined.

Lemma statuses_repeat (st : uploadStatus) (n : nat) :
  statuses (repeat (recvStatus st) n) = repeat st n.
Proof. induction n as [|n IH]; cbn [repeat statuses]; congruence. Qed.

Lemma filter_repeat (p : uploadStatus -> bool) (st : uploadStatus) (n : nat) :
  length (List.filter p (repeat st n)) = if p st then n else O.
Proof.
  induction n as [|n IH]; cbn [repeat List.filter].
  - destruct (p st); reflexivity.
  - destruct (p st); cbn [length]; congruence.
Qed.

Lemma count_repeat (p : uploadStatus -> bool) (i : WaitInput)
    (st : uploadStatus) (n : nat) :
  deliver i = recvStatus st ->
  count p (map deliver (repeat i n)) = if p st then Z.of_nat n else 0.
Proof.
  intros Hi. unfold count.
  rewrite map_repeat, Hi, statuses_repeat, filter_repeat.
  destruct (p st); reflexivity.
Qed.

(** [n] short-circuits in a row. *)
Lemma Wait_repeat_existing (n : nat) :
  let msgs := map deliver (repeat scenario_events.existing_upload n) in
  SyncedFileNumb (Wait msgs) = uint32 (Z.of_nat n)
  /\ SyncFailedNumb (Wait msgs) = 0
  /\ count short_circuited msgs = Z.of_nat n
  /\ count written msgs = 0.
Proof.
  cbv zeta.
  assert (deliver scenario_events.existing_upload
          = recvStatus (mkUploadStatus "./objects/ab/cd.file" true ""))
    as Hd by (vm_compute; reflexivity).
  destruct (Wait_counters
              (map deliver (repeat scenario_events.existing_upload n)))
    as [Hs [Hf _]].
  rewrite (count_repeat _ _ _ n Hd) in Hs.
  rewrite (count_repeat _ _ _ n Hd) in Hf.
  rewrite !(count_repeat _ _ _ n Hd).
  cbn [failed short_circuited written Exist Err negb andb String.eqb] in *.
  rewrite Hs, Hf. repeat split.
Qed.

(** C5, the claim as stated fails: after 2^32 statuses that short-circuited,
    [synced] has wrapped around to 0, while the number of short-circuits is
    2^32. *)
Lemma Wait_counters_wrap :
  let msgs :=
    map deliver (repeat scenario_events.existing_upload two_pow_32) in
  let r := Wait msgs in
  SyncedFileNumb r = 0
  /\ SyncFailedNumb r = 0
  /\ count short_circuited msgs = 2 ^ 32
  /\ count written msgs = 0
  /\ SyncedFileNumb r
     <> SyncFailedNumb r + count short_circuited msgs + count written msgs.
Proof.
  assert (Z.of_nat two_pow_32 = 2 ^ 32) as Hn
    by (unfold two_pow_32; apply Z2Nat.id; lia).
  generalize (Wait_repeat_existing two_pow_32).
  generalize dependent two_pow_32. intros n Hn. cbv zeta.
  intros (Hs & Hf & Hc & Hw). rewrite Hs, Hf, Hc, Hw, Hn.
  change (uint32 (2 ^ 32)) with 0. repeat split. lia.
Qed.

End WaitExamples.

(** ** strconv.ParseUint *)

Section ParseUintFacts.
Import strconv numeral.

Lemma digit_range (c : ascii) :
  is_digit c = true -> 0 <= byte_of c - 48 <= 9.
Proof. unfold is_digit. intros H. lia. Qed.

Lemma value_from_ge (s : string) (n : Z) :
  all_digits s = true -> 0 <= n -> n <= value_from n s.
Proof.
  revert n. induction s as [|c r IH]; intros n Hd Hn; cbn [value_from].
  - lia.
  - cbn [all_digits] in Hd. apply andb_prop in Hd as [Hc Hr].
    apply digit_range in Hc.
    specialize (IH (10 * n + (byte_of c - 48)) Hr). lia.
Qed.

(** The loop returns the value that the digits denote when it fits, and a
    range error otherwise. *)
Lemma ParseUint_loop_digits (s : string) (maxVal n : Z) :
  all_digits s = true -> 0 <= n <= maxVal -> maxVal <= maxUint64 ->
  ParseUint_loop s (maxUint64 / 10 + 1) maxVal n
  = if value_from n s <=? maxVal
    then (value_from n s, None)
    else (maxVal, Some ErrRange).
Proof.
  change (maxUint64 / 10 + 1) with 1844674407370955162.
  unfold maxUint64. change (2 ^ 64 - 1) with 18446744073709551615.
  revert n. induction s as [|c r IH]; intros n Hd Hn Hmax.
  - cbn [ParseUint_loop value_from].
    destruct (n <=? maxVal) eqn:E; [reflexivity | lia].
  - cbn [all_digits] in Hd. apply andb_prop in Hd as [Hc Hr].
    cbn [ParseUint_loop value_from]. rewrite Hc.
    pose proof (digit_range c Hc) as Hdig.
    pose proof (value_from_ge r (10 * n + (byte_of c - 48)) Hr) as Hge.
    destruct (n >=? 1844674407370955162) eqn:Hcut.
    + destruct (value_from _ r <=? maxVal) eqn:E; [lia | reflexivity].
    + assert (uint64 (n * 10) = n * 10) as ->
        by (unfold uint64; apply Z.mod_small; lia).
      destruct (Z_lt_dec (n * 10 + (byte_of c - 48)) (2 ^ 64)) as [Hfit|Hover].
      * assert (uint64 (n * 10 + (byte_of c - 48))
                = n * 10 + (byte_of c - 48)) as ->
          by (unfold uint64; apply Z.mod_small; lia).
        destruct (n * 10 + (byte_of c - 48) <? n * 10) eqn:E1; [lia|].
        destruct (n * 10 + (byte_of c - 48) >? maxVal) eqn:E2; cbn [orb].
        -- destruct (value_from _ r <=? maxVal) eqn:E; [lia | reflexivity].
        -- replace (10 * n) with (n * 10) by lia. apply IH; [exact Hr|lia|lia].
      * assert (uint64 (n * 10 + (byte_of c - 48))
                = n * 10 + (byte_of c - 48) - 2 ^ 64) as ->.
        { unfold uint64. symmetry.
          apply (Z.mod_unique _ _ 1); lia. }
        destruct (_ <? n * 10) eqn:E1; [|lia]. cbn [orb].
        destruct (value_from _ r <=? maxVal) eqn:E; [lia | reflexivity].
Qed.

Lemma ParseUint_loop_syntax (s : string) (cutoff maxVal n : Z) :
  all_digits s = false ->
  exists v e, ParseUint_loop s cutoff maxVal n = (v, Some e).
Proof.
  revert n. induction s as [|c r IH]; intros n Hd.
  - discriminate.
  - cbn [all_digits] in Hd. cbn [ParseUint_loop].
    destruct (is_digit c); [|eauto]. cbn [andb] in Hd.
    destruct (n >=? cutoff); [eauto|].
    destruct (_ || _); [eauto|]. apply IH, Hd.
Qed.

Lemma ParseUint_0 (s : string) :
  s <> "" ->
  ParseUint s 0
  = ParseUint_loop s (maxUint64 / 10 + 1) maxUint64 0.
Proof.
  intros Hs. unfold ParseUint.
  destruct (String.eqb_spec s ""); [contradiction | reflexivity].
Qed.

(** [ParseUint(s, 10, 0)] succeeds exactly on the decimal numerals below
    2^64, and returns their value. *)
Lemma ParseUint_0_decimal (s : string) :
  is_decimal s = true ->
  ParseUint s 0
  = if decimal_value s <? 2 ^ 64
    then (decimal_value s, None)
    else (maxUint64, Some ErrRange).
Proof.
  unfold is_decimal, decimal_value. intros [Hne Hd]%andb_prop.
  destruct (String.eqb_spec s "") as [Heq|Hne']; [discriminate|].
  rewrite (ParseUint_0 s Hne'), ParseUint_loop_digits;
    [|exact Hd | unfold maxUint64; lia | lia].
  unfold maxUint64.
  destruct (value_from 0 s <=? 2 ^ 64 - 1) eqn:E1;
    destruct (value_from 0 s <? 2 ^ 64) eqn:E2; try reflexivity; lia.
Qed.

Lemma ParseUint_0_not_decimal (s : string) :
  is_decimal s = false -> exists v e, ParseUint s 0 = (v, Some e).
Proof.
  unfold is_decimal.
  destruct (String.eqb_spec s "") as [->|Hne]; cbn [negb andb].
  - intros _. exists 0, ErrSyntax. reflexivity.
  - intros Hd. rewrite (ParseUint_0 s Hne). apply ParseUint_loop_syntax, Hd.
Qed.

End ParseUintFacts.

(** ** Untar *)

Section UntarFacts.
Import golang oshub numeral.

(** The checksum that [Untar] declares for an entry, in closed form. *)
Lemma declared_crc_spec (header : Header) :
  declared_crc header
  = match PAXRecords header !! "FIO.ostree.CRC" with
    | Some s =>
        if is_decimal s && (decimal_value s <? 2 ^ 64)
        then uint32 (decimal_value s)
        else 0
    | None => 0
    end.
Proof.
  unfold declared_crc.
  destruct (PAXRecords header !! "FIO.ostree.CRC") as [s|];
    cbn [default from_option id]; [|reflexivity].
  destruct (is_decimal s) eqn:Hdec; cbn [andb].
  - rewrite (ParseUint_0_decimal s Hdec).
    destruct (decimal_value s <? 2 ^ 64); reflexivity.
  - destruct (ParseUint_0_not_decimal s Hdec) as [v [e ->]]. reflexivity.
Qed.

Ltac untar_step :=
  unfold MkdirAll, Create, WriteFile;
  repeat match goal with
    | |- context [match fault ?w ?o with _ => _ end] => destruct (fault w o)
    end.

(** Every file that [Untar] emits comes from a regular-file entry of the
    archive and carries the name and the declared checksum of that entry. *)
Lemma Untar_emitted (tarReader : list TarItem) (dstDir : string) (w : World) :
  Forall (fun f =>
            exists header data,
              In (Entry header data) tarReader
              /\ Typeflag header = TypeReg
              /\ f = mkRepoFile (Name header) (declared_crc header))
    (output (Untar tarReader dstDir w)).
Proof.
  revert w. induction tarReader as [|item rest IH]; intros w.
  - constructor.
  - assert (forall w',
      Forall (fun f =>
                exists header data,
                  In (Entry header data) (item :: rest)
                  /\ Typeflag header = TypeReg
                  /\ f = mkRepoFile (Name header) (declared_crc header))
        (output (Untar rest dstDir w'))) as IH'.
    { intros w'. eapply Forall_impl; [apply IH|].
      intros f (h & d & Hin & Ht & Hf). exists h, d.
      split; [right; exact Hin | split; assumption]. }
    destruct item as [header data|msg]; cbn [Untar]; [|constructor].
    destruct (Ascii.eqb (Typeflag header) TypeDir).
    + untar_step; cbn [output]; [constructor | apply IH'].
    + destruct (Ascii.eqb_spec (Typeflag header) TypeReg) as [Hreg|];
        [|constructor].
      untar_step; cbn [output]; try constructor.
      rewrite output_emit. constructor; [|apply IH'].
      exists header, data. split; [left; reflexivity | split; auto].
Qed.

(** When the run does not panic, exactly the regular-file entries are
    emitted, in the order of the archive. *)
Lemma Untar_complete (tarReader : list TarItem) (dstDir : string) (w : World) :
  panicked (Untar tarReader dstDir w) = false ->
  output (Untar tarReader dstDir w)
  = map (fun header => mkRepoFile (Name header) (declared_crc header))
      (scenario_tar.regular_headers tarReader).
Proof.
  revert w. induction tarReader as [|item rest IH]; intros w.
  - reflexivity.
  - destruct item as [header data|msg]; cbn [Untar]; [|discriminate].
    unfold scenario_tar.regular_headers. cbn [flat_map].
    fold (scenario_tar.regular_headers rest).
    destruct (Ascii.eqb (Typeflag header) TypeDir).
    + untar_step; cbn [panicked app]; [discriminate | apply IH].
    + destruct (Ascii.eqb (Typeflag header) TypeReg); [|discriminate].
      untar_step; cbn [panicked]; try discriminate.
      rewrite panicked_emit, output_emit. intros Hp.
      cbn [app map]. f_equal. apply IH, Hp.
Qed.

Lemma final_world_emit (f : RepoFile) (r : run (list RepoFile)) :
  final_world (emit f r) = final_world r.
Proof. destruct r; reflexivity. Qed.

(** A run that does not panic on a first part of the archive goes on with
    the rest in the world that this part leaves. *)
Lemma Untar_app_output (done rest : list TarItem) (dstDir : string)
    (w : World) :
  panicked (Untar done dstDir w) = false ->
  output (Untar (done ++ rest) dstDir w)
  = (output (Untar done dstDir w)
     ++ output (Untar rest dstDir (final_world (Untar done dstDir w))))%list.
Proof.
  revert w. induction done as [|item done' IH]; intros w.
  - reflexivity.
  - destruct item as [header data|msg]; cbn [Untar app]; [|discriminate].
    destruct (Ascii.eqb (Typeflag header) TypeDir).
    + untar_step; cbn [panicked]; [discriminate | apply IH].
    + destruct (Ascii.eqb (Typeflag header) TypeReg); [|discriminate].
      untar_step; cbn [panicked]; try discriminate.
      rewrite panicked_emit, !output_emit, final_world_emit. intros Hp.
      cbn [app]. f_equal. apply IH, Hp.
Qed.

Lemma regular_headers_app (l1 l2 : list TarItem) :
  scenario_tar.regular_headers (l1 ++ l2)
  = (scenario_tar.regular_headers l1
     ++ scenario_tar.regular_headers l2)%list.
Proof. unfold scenario_tar.regular_headers. apply flat_map_app. Qed.

(** Without a read error, an entry of another type or a failing operation
    of the staging directory, the run does not panic. *)
Lemma Untar_no_panic (tarReader : list TarItem) (dstDir : string)
    (w : World) :
  (forall o, fault w o = None) ->
  Forall (fun item =>
            exists header data,
              item = Entry header data
              /\ (Typeflag header = TypeDir \/ Typeflag header = TypeReg))
    tarReader ->
  panicked (Untar tarReader dstDir w) = false.
Proof.
  revert w. induction tarReader as [|item rest IH]; intros w Hnf Hall.
  - reflexivity.
  - apply Forall_cons in Hall as [(header & data & -> & Htype) Hrest].
    assert (forall d w', (forall o, fault w' o = None) ->
              MkdirAll d w' = (None, put_dir d (log (OpMkdirAll d) w')))
      as Hmk by (intros d w' H; unfold MkdirAll; rewrite H; reflexivity).
    assert (forall p w', (forall o, fault w' o = None) ->
              Create p w' = (None, put_file p "" (log (OpCreate p) w')))
      as Hcr by (intros p w' H; unfold Create; rewrite H; reflexivity).
    assert (forall p d w', (forall o, fault w' o = None) ->
              WriteFile p d w' = (None, put_file p d (log (OpWriteFile p) w')))
      as Hwr by (intros p d w' H; unfold WriteFile; rewrite H; reflexivity).
    cbn [Untar].
    destruct (Ascii.eqb_spec (Typeflag header) TypeDir) as [_|Hnd].
    + rewrite (Hmk _ _ Hnf). apply IH; [exact Hnf | exact Hrest].
    + destruct (Ascii.eqb_spec (Typeflag header) TypeReg) as [_|Hnr];
        [|destruct Htype; contradiction].
      rewrite (Hmk _ _ Hnf), Hcr by exact Hnf. rewrite Hwr by exact Hnf.
      rewrite panicked_emit. apply IH; [exact Hnf | exact Hrest].
Qed.

(** C6 (as the code has it): name [checksum] the value [c] of the record
    [FIO.ostree.CRC] of an entry reduced modulo 2^32 when the record is a
    decimal numeral below 2^64, and 0 when the record is absent or does not
    parse.  Every regular-file entry that is unpacked (the run has not
    panicked by the end of that entry) is emitted downstream as a RepoFile
    with the name of the entry and that checksum; nothing else is emitted; a
    run that does not panic emits exactly the regular-file entries, in the
    order of the archive; and a run panics only on a read error, an entry of
    another type or a failing operation of the staging directory.  The
    checksum is [c] itself when [c < 2^32]. *)
Theorem Untar_declared_checksum (tarReader : list TarItem) (dstDir : string)
    (w : World) :
  let checksum (header : Header) : Z :=
    match PAXRecords header !! "FIO.ostree.CRC" with
    | Some s =>
        if is_decimal s && (decimal_value s <? 2 ^ 64)
        then decimal_value s mod 2 ^ 32
        else 0
    | None => 0
    end in
  let downstream (header : Header) : RepoFile :=
    mkRepoFile (Name header) (checksum header) in
  (forall done header data rest,
     tarReader = (done ++ Entry header data :: rest)%list ->
     Typeflag header = TypeReg ->
     panicked (Untar (done ++ [Entry header data]) dstDir w) = false ->
     In (downstream header) (output (Untar tarReader dstDir w)))
  /\ Forall (fun f =>
               exists header data,
                 In (Entry header data) tarReader
                 /\ Typeflag header = TypeReg
                 /\ f = downstream header)
       (output (Untar tarReader dstDir w))
  /\ (panicked (Untar tarReader dstDir w) = false ->
      output (Untar tarReader dstDir w)
      = map downstream (scenario_tar.regular_headers tarReader))
  /\ ((forall o, fault w o = None) ->
      Forall (fun item =>
                exists header data,
                  item = Entry header data
                  /\ (Typeflag header = TypeDir
                      \/ Typeflag header = TypeReg)) tarReader ->
      panicked (Untar tarReader dstDir w) = false)
  /\ (forall header s,
        PAXRecords header !! "FIO.ostree.CRC" = Some s ->
        is_decimal s = true -> decimal_value s < 2 ^ 32 ->
        checksum header = decimal_value s).
Proof.
  cbv zeta.
  assert (forall header,
            mkRepoFile (Name header) (declared_crc header)
            = mkRepoFile (Name header)
                match PAXRecords header !! "FIO.ostree.CRC" with
                | Some s =>
                    if is_decimal s && (decimal_value s <? 2 ^ 64)
                    then decimal_value s mod 2 ^ 32
                    else 0
                | None => 0
                end) as Hcrc.
  { intros header. rewrite declared_crc_spec. reflexivity. }
  split; [|split; [|split; [|split]]].
  - intros done header data rest -> Hreg Hp.
    change (done ++ Entry header data :: rest)%list
      with (done ++ [Entry header data] ++ rest)%list.
    rewrite app_assoc, (Untar_app_output _ _ _ _ Hp).
    apply in_or_app. left.
    rewrite (Untar_complete _ _ _ Hp), regular_headers_app, map_app.
    apply in_or_app. right.
    unfold scenario_tar.regular_headers. cbn [flat_map].
    rewrite Hreg. cbn [Ascii.eqb Bool.eqb TypeReg TypeDir app map andb].
    left. apply Hcrc.
  - eapply Forall_impl; [apply Untar_emitted|].
    intros f (header & data & Hin & Hreg & ->).
    exists header, data. split; [exact Hin|]. split; [exact Hreg|].
    apply Hcrc.
  - intros Hp. rewrite (Untar_complete _ _ _ Hp).
    apply map_ext. exact Hcrc.
  - apply Untar_no_panic.
  - intros header s Hrec Hdec Hlt. rewrite Hrec, Hdec. cbn [andb].
    assert (0 <= decimal_value s) as Hpos.
    { unfold decimal_value. apply value_from_ge; [|lia].
      unfold is_decimal in Hdec. apply andb_prop in Hdec. apply Hdec. }
    destruct (decimal_value s <? 2 ^ 64) eqn:E; [|lia].
    apply Z.mod_small. lia.
Qed.

Lemma Untar_declared_checksum_witness :
  let dir := Entry (mkHeader "./objects/ab" TypeDir ∅) "" in
  let header :=
    mkHeader "./objects/ab/cd.file" TypeReg
      (scenario_tar.crc_record "305419896") in
  let other :=
    Entry (mkHeader "./objects/ab/ef.file" TypeReg
             (scenario_tar.crc_record "4294967296")) "other" in
  scenario_tar.archive = [dir; Entry header "payload"; other]
  /\ panicked (Untar [dir; Entry header "payload"] "/stage"
                 scenario_tar.empty_stage) = false
  /\ In (mkRepoFile "./objects/ab/cd.file" 305419896)
       (output (Untar scenario_tar.archive "/stage"
                  scenario_tar.empty_stage)).
Proof.
  cbv zeta. split; [reflexivity|]. split; [vm_compute; reflexivity|].
  exact (proj1
           (Untar_declared_checksum scenario_tar.archive "/stage"
              scenario_tar.empty_stage)
           [Entry (mkHeader "./objects/ab" TypeDir ∅) ""]
           (mkHeader "./objects/ab/cd.file" TypeReg
              (scenario_tar.crc_record "305419896"))
           "payload"
           [Entry (mkHeader "./objects/ab/ef.file" TypeReg
                     (scenario_tar.crc_record "4294967296")) "other"]
           eq_refl eq_refl eq_refl).
Defined.

Example Untar_archive :
  Untar scenario_tar.archive "/stage" scenario_tar.empty_stage
  = Done
      [ mkRepoFile "./objects/ab/cd.file" 305419896;
        mkRepoFile "./objects/ab/ef.file" 0 ]
      (mkWorld ∅
         (<["/stage/objects/ab/ef.file" := "other"]>
            (<["/stage/objects/ab/cd.file" := "payload"]> ∅))
         {["/stage/objects/ab"]}
         scenario.no_fault
         [ OpMkdirAll "/stage/objects/ab";
           OpMkdirAll "/stage/objects/ab";
           OpCreate "/stage/objects/ab/cd.file";
           OpWriteFile "/stage/objects/ab/cd.file";
           OpMkdirAll "/stage/objects/ab";
           OpCreate "/stage/objects/ab/ef.file";
           OpWriteFile "/stage/objects/ab/ef.file" ]).
Proof. vm_compute. reflexivity. Qed.

(** C6, the claim as stated fails: the record ["4294967296"] is a decimal
    numeral with value 2^32, yet the file is emitted with checksum 0. *)
Lemma Untar_truncates_checksum :
  let header :=
    mkHeader "./objects/ab/ef.file" TypeReg
      (scenario_tar.crc_record "4294967296") in
  PAXRecords header !! "FIO.ostree.CRC" = Some "4294967296"
  /\ is_decimal "4294967296" = true
  /\ decimal_value "4294967296" = 4294967296
  /\ output (Untar [Entry header "other"] "/stage" scenario_tar.empty_stage)
     = [mkRepoFile "./objects/ab/ef.file" 0]
  /\ CRC32 (mkRepoFile "./objects/ab/ef.file" (declared_crc header))
     <> decimal_value "4294967296".
Proof. vm_compute. repeat split; try reflexivity. discriminate. Qed.

End UntarFacts.

(** ** The client: requests *)

Section RequestFacts.
Import golang fiopush.

(** C8 (as the code has it): the check request always carries the header
    [Authorization], with the value ["Bearer "] followed by the token,
    whether or not the token is empty. *)
Theorem checkRepo_sets_Authorization (objs : gmap string Z)
    (url token : string) :
  Header (checkRepo_request objs url token) !! "Authorization"
  = Some ["Bearer " +:+ token]
  /\ Header_Get "Authorization" (checkRepo_request objs url token)
     = "Bearer " +:+ token
  /\ Header (checkRepo_request objs url token) !! "Content-Type"
     = Some ["application/json"]
  /\ Method (checkRepo_request objs url token) = "GET"
  /\ Body (checkRepo_request objs url token) = objs.
Proof.
  unfold checkRepo_request, Header_Get, Header_Set. cbn [Header Method Body].
  rewrite lookup_insert_eq.
  rewrite lookup_insert_ne by discriminate. rewrite lookup_insert_eq.
  repeat split.
Qed.

(** C8, the claim as stated fails: in the unauthenticated flow the token is
    empty and the check request still carries an [Authorization] header. *)
Lemma unauthenticated_request_has_Authorization :
  match NewPusherNoAuth scenario_client.repo_fs "/repo"
          "https://hub.example" "acme" with
  | inl p =>
      match auth (fun _ => inr "no credentials") p with
      | inl p =>
          token p = ""
          /\ Header (checkRepo_request ∅ (url p) (token p)) !! "Authorization"
             = Some ["Bearer "]
      | inr _ => False
      end
  | inr _ => False
  end.
Proof. vm_compute. split; reflexivity. Qed.

End RequestFacts.

(** ** The client: pre-flight check *)

Section CheckRepoDirFacts.
Import golang localfs fiopush.

(** C9 (as the code has it): the pre-flight check succeeds exactly when none
    of the three [Stat] calls, on the root, on [root/config] and on
    [root/objects], reports that the path does not exist; the kind of the
    entries is not examined.  When the check fails, the construction of the
    pusher fails with the error of the check. *)
Theorem checkRepoDir_accepts_iff (fs : FileSystem)
    (dir hubURL factory : string) :
  (checkRepoDir fs dir = None <->
   IsNotExist (Stat fs dir) = false
   /\ IsNotExist (Stat fs (gopath.Join dir "config")) = false
   /\ IsNotExist (Stat fs (gopath.Join dir "objects")) = false)
  /\ match checkRepoDir fs dir with
     | Some err => NewPusherNoAuth fs dir hubURL factory = inr err
     | None => True
     end.
Proof.
  split.
  - unfold checkRepoDir.
    destruct (IsNotExist (Stat fs dir));
      [split; [discriminate | intros [H _]; discriminate]|].
    destruct (IsNotExist (Stat fs (gopath.Join dir "config")));
      [split; [discriminate | intros [_ [H _]]; discriminate]|].
    destruct (IsNotExist (Stat fs (gopath.Join dir "objects")));
      [split; [discriminate | intros [_ [_ H]]; discriminate]|].
    split; auto.
  - unfold NewPusherNoAuth. destruct (checkRepoDir fs dir); auto.
Qed.

Example checkRepoDir_repo :
  checkRepoDir scenario_client.repo_fs "/repo" = None
  /\ checkRepoDir scenario_client.repo_fs "/repo/tmp"
     = Some ("The specified directory doesn't contain an ostree repo: "
             +:+ "/repo/tmp" +:+ nl)
  /\ checkRepoDir scenario_client.repo_fs "/nowhere"
     = Some ("The specified directory doesn't exist: " +:+ "/nowhere" +:+ nl).
Proof. vm_compute. repeat split; reflexivity. Qed.

(** C9, the claim as stated fails: a root whose [config] is a directory and
    whose [objects] is a regular file passes the check, and so does a root
    that is itself a regular file. *)
Lemma checkRepoDir_accepts_wrong_kinds :
  Stat scenario_client.odd_fs "/odd/config" = inl (Dir "config" [])
  /\ Stat scenario_client.odd_fs "/odd/objects" = inl (File "objects" "" true)
  /\ checkRepoDir scenario_client.odd_fs "/odd" = None
  /\ Stat scenario_client.odd_fs "/odd/objects/config" = inr ENOTDIR
  /\ checkRepoDir scenario_client.odd_fs "/odd/objects" = None.
Proof. vm_compute. repeat split; reflexivity. Qed.

End CheckRepoDirFacts.

(** ** The client: walker *)

Section WalkerFacts.
Import golang localfs fiopush.

(** The three prefixes of the filter exclude one another. *)
Lemma prefixes_disjoint (path : string) :
  (HasPrefix path "./objects/" = true -> HasPrefix path "./config" = false)
  /\ (HasPrefix path "./objects/" = true -> HasPrefix path "./refs/" = false)
  /\ (HasPrefix path "./config" = true -> HasPrefix path "./refs/" = false).
Proof.
  repeat split; intros [r ->]%HasPrefix_app;
    match goal with |- ?b = false => destruct b eqn:E end;
    try reflexivity;
    apply HasPrefix_app in E as [r' E]; vm_compute in E; discriminate.
Qed.

(** A path that passes [filterRepoFiles] starts with exactly one of the
    prefixes. *)
Lemma filterRepoFiles_exactly_one (path : string) :
  filterRepoFiles path = true ->
  length (List.filter (HasPrefix path) repoFileFilterIn) = 1%nat.
Proof.
  destruct (prefixes_disjoint path) as [H1 [H2 H3]].
  unfold filterRepoFiles, repoFileFilterIn.
  cbn [filterRepoFiles_in List.filter].
  destruct (HasPrefix path "./objects/").
  - rewrite H1, H2 by reflexivity. reflexivity.
  - destruct (HasPrefix path "./config").
    + rewrite H3 by reflexivity. reflexivity.
    + destruct (HasPrefix path "./refs/"); [reflexivity | discriminate].
Qed.

Lemma queued_of_enqueue (f : oshub.RepoFile) (r : Walked) :
  queued_of (enqueue f r) = f :: queued_of r.
Proof. destruct r; reflexivity. Qed.

(** Every file on the queue comes from the visit of a readable regular file
    whose relative path passes the filter. *)
Lemma walkFn_all_queued (dir : string) (vs : list (string * Node)) :
  Forall (fun f =>
            filterRepoFiles (oshub.Path f) = true
            /\ exists fullPath name data,
                 In (fullPath, File name data true) vs
                 /\ oshub.Path f = Replace1 fullPath dir "."
                 /\ oshub.CRC32 f = crc32.Sum32 data)
    (queued_of (walkFn_all dir vs)).
Proof.
  induction vs as [|[fullPath info] rest IH].
  - constructor.
  - assert (Forall (fun f =>
              filterRepoFiles (oshub.Path f) = true
              /\ exists fullPath' name data,
                   In (fullPath', File name data true)
                     ((fullPath, info) :: rest)
                   /\ oshub.Path f = Replace1 fullPath' dir "."
                   /\ oshub.CRC32 f = crc32.Sum32 data)
              (queued_of (walkFn_all dir rest))) as IH'.
    { eapply Forall_impl; [apply IH|].
      intros f [Hf (p & n & d & Hin & H)]. split; [exact Hf|].
      exists p, n, d. split; [right; exact Hin | exact H]. }
    cbn [walkFn_all]. destruct (IsDir info) eqn:Hdir; [exact IH'|].
    destruct (filterRepoFiles (Replace1 fullPath dir ".")) eqn:Hfilter;
      cbn [negb]; [|exact IH'].
    destruct info as [name data [|]|name children]; try constructor.
    rewrite queued_of_enqueue. constructor; [|exact IH'].
    split; [exact Hfilter|]. exists fullPath, name, data.
    split; [left; reflexivity | split; reflexivity].
Qed.

(** C7: every RepoFile that the walker emits has a path that starts with
    exactly one of [./objects/], [./config], [./refs/], and it is the
    root-relative path of a regular file met by the walk; a directory, or a
    file whose relative path starts with none of the prefixes, is never
    emitted. *)
Theorem walkAndCrcRepo_emits_filtered (fs : FileSystem) (repoDir : string) :
  Forall (fun f =>
            length (List.filter (HasPrefix (oshub.Path f)) repoFileFilterIn)
            = 1%nat
            /\ exists fullPath name data,
                 In (fullPath, File name data true)
                   (scenario_client.walk_visits fs repoDir)
                 /\ IsDir (File name data true) = false
                 /\ oshub.Path f
                    = Replace1 fullPath (gopath.Clean repoDir) "."
                 /\ filterRepoFiles (Replace1 fullPath (gopath.Clean repoDir)
                                       ".") = true
                 /\ oshub.CRC32 f = crc32.Sum32 data)
    (queued_of (walkAndCrcRepo fs repoDir)).
Proof.
  unfold walkAndCrcRepo, scenario_client.walk_visits.
  destruct (Stat fs (gopath.Clean repoDir)) as [n|e]; [|constructor].
  eapply Forall_impl; [apply walkFn_all_queued|].
  intros f [Hf (p & name & d & Hin & Hpath & Hcrc)].
  split; [apply filterRepoFiles_exactly_one, Hf|].
  exists p, name, d. rewrite <- Hpath. repeat split; assumption.
Qed.

Example walkAndCrcRepo_repo :
  walkAndCrcRepo scenario_client.repo_fs "/repo/"
  = WalkDone
      [ oshub.mkRepoFile "./config" (crc32.Sum32 "[core]");
        oshub.mkRepoFile "./objects/ab/cd.file" (crc32.Sum32 "payload");
        oshub.mkRepoFile "./refs/heads/main" (crc32.Sum32 "abcd") ].
Proof. vm_compute. reflexivity. Qed.

End WalkerFacts.

(** ** The client: batcher *)

Section BatcherFacts.
Import golang fiopush invariants.

Lemma receive_invariant (st : PushState) (i : nat) (object : oshub.RepoFile) :
  batch_invariant st -> batch_invariant (receive st i object).
Proof.
  intros [Hsent Hpending]. unfold receive.
  set (j := (i mod concurrentPusherNumb)%nat).
  set (m0 := default ∅ (objectsToCheck st !! j)).
  assert (Z.of_nat (size m0) <= filesToCheckMaxNumb) as Hm0.
  { subst m0. destruct (objectsToCheck st !! j) as [m|] eqn:E; cbn [default].
    - exact (Forall_lookup_1 _ _ _ _ Hpending E).
    - rewrite map_size_empty. vm_compute. discriminate. }
  set (m := <[oshub.Path object := oshub.CRC32 object]> m0).
  assert (1 <= Z.of_nat (size m) <= Z.of_nat (size m0) + 1) as Hm.
  { subst m. rewrite map_size_insert.
    destruct (m0 !! oshub.Path object) as [v|] eqn:E; cbn [id].
    - assert (size m0 <> 0%nat)
        by (intros ->%map_size_empty_inv; rewrite lookup_empty in E;
            discriminate).
      lia.
    - lia. }
  destruct (Z.of_nat (size m) >? filesToCheckMaxNumb) eqn:Hcmp;
    split; cbn [checked objectsToCheck].
  - apply Forall_app. split; [exact Hsent|]. repeat constructor; lia.
  - apply Forall_insert; [exact Hpending|].
    rewrite map_size_empty. vm_compute. discriminate.
  - exact Hsent.
  - apply Forall_insert; [exact Hpending|]. lia.
Qed.

Lemma drain_invariant (st : PushState) :
  batch_invariant st ->
  Forall (fun m => 1 <= Z.of_nat (size m) <= filesToCheckMaxNumb + 1)
    (drain st).
Proof.
  intros [Hsent Hpending]. unfold drain. apply Forall_app.
  split; [exact Hsent|].
  induction Hpending as [|m ms Hm _ IH]; cbn [List.filter]; [constructor|].
  destruct (size m =? 0)%nat eqn:E; cbn [negb]; [exact IH|].
  constructor; [|exact IH]. apply Nat.eqb_neq in E. lia.
Qed.

(** Whatever the scheduler does, a batch handed to [checkRepo] is not empty
    and has at most [filesToCheckMaxNumb + 1] entries. *)
Lemma push_batch_sizes (sched : list nat) (fileQueue : list oshub.RepoFile) :
  Forall (fun m => 1 <= Z.of_nat (size m) <= filesToCheckMaxNumb + 1)
    (push sched fileQueue).
Proof.
  unfold push.
  assert (batch_invariant
            (mkPushState (replicate concurrentPusherNumb ∅) [])) as Hinit.
  { split; cbn [checked objectsToCheck]; [constructor|].
    apply Forall_replicate. rewrite map_size_empty. vm_compute. discriminate. }
  revert Hinit. generalize (mkPushState (replicate concurrentPusherNumb ∅) []).
  revert sched. induction fileQueue as [|object rest IH]; intros sched st Hst.
  - apply drain_invariant, Hst.
  - cbn [push_run]. apply IH, receive_invariant, Hst.
Qed.

(** C1, the code at 501 files: when one worker receives all of them, the
    inner loop breaks only once its map holds 501 entries, and that map is
    sent as a single batch; with 500 files there is one batch of 500, with
    502 files a batch of 501 and a batch of 1. *)
Theorem push_sends_batch_of_501 :
  filesToCheckMaxNumb = 500
  /\ map size (push [] (scenario_client.numbered_files 501)) = [501%nat]
  /\ map size (push [] (scenario_client.numbered_files 500)) = [500%nat]
  /\ map size (push [] (scenario_client.numbered_files 502))
     = [501%nat; 1%nat].
Proof. vm_compute. repeat split; reflexivity. Qed.

End BatcherFacts.

(** * Further properties of the code *)

(** Case analysis over every branch of [upload], with the equations kept. *)
Ltac upload_branches :=
  unfold oshub.upload, oshub.Attrs, oshub.Open, oshub.NewWriter, oshub.Copy,
    oshub.Close, oshub.attrs_match, oshub.attrs_other_error;
  repeat match goal with
    | |- context [match oshub.fault ?w ?o with _ => _ end] =>
        destruct (oshub.fault w o) eqn:?
    | |- context [match oshub.bucket ?w !! ?k with _ => _ end] =>
        destruct (oshub.bucket w !! k) eqn:?
    | |- context [match oshub.files ?w !! ?k with _ => _ end] =>
        destruct (oshub.files w !! k) eqn:?
    | |- context [if ?b then _ else _] => destruct b eqn:?
    end;
  cbn [fst snd oshub.Object oshub.Exist oshub.Err golang.is_ErrObjectNotExist
       golang.Error oshub.log oshub.bucket oshub.files oshub.dirs oshub.fault
       oshub.trace oshub.put_object negb oshub.SendCRC32C oshub.CRC32C
       oshub.body] in |- *.

(** ** upload: what it does to the world *)

Section UploadEffects.
Import golang oshub.

(** [upload] never touches the staging directory, and it changes the bucket
    in one way only: by storing the staged bytes under the object name, after
    which it reports a write without error; the bytes then match the declared
    checksum unless that checksum is 0. *)
Theorem upload_bucket_effect (objectName : string) (object : RepoFile)
    (srcFilePath : string) (w : World) :
  let r := upload objectName object srcFilePath w in
  files r.2 = files w
  /\ dirs r.2 = dirs w
  /\ fault r.2 = fault w
  /\ (bucket r.2 = bucket w
      \/ exists data,
           files w !! srcFilePath = Some data
           /\ (CRC32 object = 0 \/ crc32.Sum32 data = CRC32 object)
           /\ bucket r.2 = <[objectName := data]> (bucket w)
           /\ r.1 = mkUploadStatus (Path object) false "").
Proof.
  cbv zeta. upload_branches; try discriminate.
  all: repeat (split; [reflexivity|]).
  all: try (left; reflexivity).
  all: right; eexists; split; [eassumption|].
  all: split; [|split; reflexivity].
  all: repeat match goal with
         | H : context [oshub.SendCRC32C _] |- _ =>
             cbn [oshub.SendCRC32C oshub.CRC32C oshub.body] in H
         end; lia.
Qed.

End UploadEffects.

Section UploadOutcome.
Import golang oshub.

Lemma fault_log (o o' : Op) (w : World) : fault (log o w) o' = fault w o'.
Proof. reflexivity. Qed.

(** [upload] computed when no operation fails and the file is staged. *)
Lemma upload_no_fault (objectName : string) (object : RepoFile)
    (srcFilePath data : string) (w : World) :
  (forall o, fault w o = None) ->
  files w !! srcFilePath = Some data ->
  upload objectName object srcFilePath w
  = let attempted :=
      log (OpClose objectName)
        (log (OpCopy objectName)
           (log (OpNewWriter objectName)
              (log (OpOpen srcFilePath) (log (OpAttrs objectName) w)))) in
    if match bucket w !! objectName with
       | Some stored => crc32.Sum32 stored =? CRC32 object
       | None => false
       end
    then (mkUploadStatus (Path object) true "", log (OpAttrs objectName) w)
    else if (CRC32 object =? 0) || (crc32.Sum32 data =? CRC32 object)
    then (mkUploadStatus (Path object) false "",
          put_object objectName data attempted)
    else (mkUploadStatus (Path object) false
            "googleapi: Error 400: checksum mismatch", attempted).
Proof.
  intros Hnf Hfile. cbv zeta.
  unfold upload, Attrs, Open, NewWriter, Copy, Close,
    attrs_match, attrs_other_error.
  rewrite Hnf.
  destruct (bucket w !! objectName) as [stored|];
    [destruct (crc32.Sum32 stored =? CRC32 object); [reflexivity|]|].
  all: repeat (cbn [fault files log negb is_ErrObjectNotExist
                    SendCRC32C CRC32C body];
               rewrite ?Hnf, ?Hfile).
  all: destruct (CRC32 object =? 0) eqn:Hz;
         cbn [negb orb andb SendCRC32C CRC32C body]; [reflexivity|].
  all: destruct (crc32.Sum32 data =? CRC32 object); reflexivity.
Qed.

End UploadOutcome.

Section UploadTwice.
Import golang oshub.

(** With no failing operation, a staged file and no matching object in the
    bucket, [upload] performs the five operations of a write; the object is
    stored when the declared checksum is 0 or is the checksum of the staged
    bytes, and otherwise the write is rejected: the status carries an error
    and the bucket is unchanged. *)
Theorem upload_write_outcome (objectName : string) (object : RepoFile)
    (srcFilePath data : string) (w : World) :
  (forall o, fault w o = None) ->
  files w !! srcFilePath = Some data ->
  (forall stored, bucket w !! objectName = Some stored ->
                  crc32.Sum32 stored <> CRC32 object) ->
  let r := upload objectName object srcFilePath w in
  trace r.2
  = (trace w ++ [ OpAttrs objectName; OpOpen srcFilePath;
                  OpNewWriter objectName; OpCopy objectName;
                  OpClose objectName ])%list
  /\ Exist r.1 = false
  /\ if (CRC32 object =? 0) || (crc32.Sum32 data =? CRC32 object)
     then Err r.1 = "" /\ bucket r.2 = <[objectName := data]> (bucket w)
     else Err r.1 <> "" /\ bucket r.2 = bucket w.
Proof.
  intros Hnf Hfile Hmiss. cbv zeta.
  rewrite (upload_no_fault objectName object srcFilePath data w Hnf Hfile).
  cbv zeta.
  assert (match bucket w !! objectName with
          | Some stored => crc32.Sum32 stored =? CRC32 object
          | None => false
          end = false) as ->.
  { destruct (bucket w !! objectName) as [stored|]; [|reflexivity].
    apply Z.eqb_neq, Hmiss. reflexivity. }
  destruct ((CRC32 object =? 0) || (crc32.Sum32 data =? CRC32 object));
    cbn [fst snd Exist Err trace bucket log put_object];
    rewrite <- !app_assoc; repeat split; discriminate.
Qed.

Lemma upload_write_outcome_witness :
  let r := upload "repo/ab/cd.file" scenario.object_file
             "/stage/objects/ab/cd.file" scenario.staged_world in
  Exist r.1 = false
  /\ Err r.1 = ""
  /\ bucket r.2 = <["repo/ab/cd.file" := "payload"]> ∅.
Proof.
  pose proof (upload_write_outcome "repo/ab/cd.file" scenario.object_file
                "/stage/objects/ab/cd.file" "payload" scenario.staged_world
                (fun _ => eq_refl) eq_refl) as H.
  cbv zeta in H |- *.
  destruct H as (_ & He & Hw).
  { intros stored Hs. vm_compute in Hs. discriminate Hs. }
  split; [exact He|].
  change ((CRC32 scenario.object_file =? 0)
          || (crc32.Sum32 "payload" =? CRC32 scenario.object_file))
    with true in Hw.
  exact Hw.
Defined.

(** Uploading the same file again after a write: the second call finds the
    object and short-circuits exactly when the checksum of the stored bytes
    is the declared checksum.  A file whose declared checksum is 0 is
    therefore written again, unless its bytes have checksum 0; the bucket is
    the same after the second call in both cases. *)
Theorem upload_again (objectName : string) (object : RepoFile)
    (srcFilePath data : string) (w : World) :
  (forall o, fault w o = None) ->
  files w !! srcFilePath = Some data ->
  (forall stored, bucket w !! objectName = Some stored ->
                  crc32.Sum32 stored <> CRC32 object) ->
  CRC32 object = 0 \/ crc32.Sum32 data = CRC32 object ->
  let r1 := upload objectName object srcFilePath w in
  let r2 := upload objectName object srcFilePath r1.2 in
  r1.1 = mkUploadStatus (Path object) false ""
  /\ r2.1 = mkUploadStatus (Path object)
              (crc32.Sum32 data =? CRC32 object) ""
  /\ bucket r2.2 = bucket r1.2
  /\ bucket r2.2 !! objectName = Some data.
Proof.
  intros Hnf Hfile Hmiss Hcrc. cbv zeta.
  rewrite (upload_no_fault objectName object srcFilePath data w Hnf Hfile).
  cbv zeta.
  assert (match bucket w !! objectName with
          | Some stored => crc32.Sum32 stored =? CRC32 object
          | None => false
          end = false) as ->.
  { destruct (bucket w !! objectName) as [stored|]; [|reflexivity].
    apply Z.eqb_neq, Hmiss. reflexivity. }
  assert ((CRC32 object =? 0) || (crc32.Sum32 data =? CRC32 object) = true)
    as Hok by lia.
  rewrite Hok. cbn [fst snd].
  match goal with
  | |- context [upload _ _ _ ?w1] =>
      rewrite (upload_no_fault objectName object srcFilePath data w1);
        [|exact Hnf|exact Hfile]
  end.
  cbv zeta. cbn [bucket put_object log].
  rewrite lookup_insert_eq, Hok.
  destruct (crc32.Sum32 data =? CRC32 object);
    cbn [fst snd bucket put_object log];
    rewrite ?insert_insert_eq, ?lookup_insert_eq; repeat split.
Qed.

Lemma upload_again_witness :
  let zero_file := mkRepoFile "./objects/ab/cd.file" 0 in
  let r1 := upload "repo/ab/cd.file" zero_file "/stage/objects/ab/cd.file"
              scenario.staged_world in
  let r2 := upload "repo/ab/cd.file" zero_file "/stage/objects/ab/cd.file"
              r1.2 in
  r1.1 = mkUploadStatus "./objects/ab/cd.file" false ""
  /\ r2.1 = mkUploadStatus "./objects/ab/cd.file" false ""
  /\ bucket r2.2 !! "repo/ab/cd.file" = Some "payload".
Proof.
  cbv zeta.
  destruct (upload_again "repo/ab/cd.file"
              (mkRepoFile "./objects/ab/cd.file" 0)
              "/stage/objects/ab/cd.file" "payload" scenario.staged_world
              (fun _ => eq_refl) eq_refl) as (H1 & H2 & _ & H4).
  { intros stored Hs. vm_compute in Hs. discriminate Hs. }
  { left. reflexivity. }
  split; [exact H1|]. split; [exact H2 | exact H4].
Defined.

End UploadTwice.

(** ** Check and Sync together *)

Section CheckSync.
Import golang oshub naming.

Lemma final_world_emit_run {A} (x : A) (r : run (list A)) :
  final_world (emit x r) = final_world r.
Proof. destruct r; reflexivity. Qed.





End CheckSync.

(** ** Wait: the order of arrival *)

Section WaitOrder.
Import golang oshub events.

Lemma filter_length_Permutation {A} (p : A -> bool) (l1 l2 : list A) :
  Permutation l1 l2 ->
  length (List.filter p l1) = length (List.filter p l2).
Proof.
  induction 1 as [|x l1 l2 _ IH|x y l|l1 l2 l3 _ IH1 _ IH2]; cbn [List.filter].
  - reflexivity.
  - destruct (p x); cbn [length]; congruence.
  - destruct (p x), (p y); reflexivity.
  - congruence.
Qed.


(** The three status counters of the SyncReport depend only on which
    statuses arrived: neither their order nor the place where the filter's
    count arrives among them matters. *)
Theorem Wait_order_irrelevant (msgs1 msgs2 : list WaitMsg) :
  Permutation (statuses msgs1) (statuses msgs2) ->
  SyncedFileNumb (Wait msgs1) = SyncedFileNumb (Wait msgs2)
  /\ SyncFailedNumb (Wait msgs1) = SyncFailedNumb (Wait msgs2)
  /\ UploadSyncedFileNumb (Wait msgs1) = UploadSyncedFileNumb (Wait msgs2).
Proof.
  intros Hperm.
  destruct (Wait_counters msgs1) as (Hs1 & Hf1 & Hu1).
  destruct (Wait_counters msgs2) as (Hs2 & Hf2 & Hu2).
  rewrite Hs1, Hs2, Hf1, Hf2, Hu1, Hu2. unfold count.
  rewrite !(filter_length_Permutation _ _ _ Hperm). repeat split.
Qed.

Lemma Wait_order_irrelevant_witness :
  let ok := mkUploadStatus "./objects/a" false "" in
  let bad := mkUploadStatus "./objects/b" false "timeout" in
  let msgs1 := [recvReport 2; recvStatus ok; recvStatus bad] in
  let msgs2 := [recvStatus bad; recvStatus ok; recvReportClosed] in
  Permutation (statuses msgs1) (statuses msgs2)
  /\ SyncedFileNumb (Wait msgs1) = SyncedFileNumb (Wait msgs2)
  /\ SyncFailedNumb (Wait msgs1) = SyncFailedNumb (Wait msgs2)
  /\ UploadSyncedFileNumb (Wait msgs1) = UploadSyncedFileNumb (Wait msgs2)
  /\ UploadedFileNumb (Wait msgs1) = 2
  /\ UploadedFileNumb (Wait msgs2) = 0.
Proof.
  cbv zeta.
  assert (Permutation
            (statuses [recvReport 2;
                       recvStatus (mkUploadStatus "./objects/a" false "");
                       recvStatus (mkUploadStatus "./objects/b" false
                                     "timeout")])
            (statuses [recvStatus (mkUploadStatus "./objects/b" false
                                     "timeout");
                       recvStatus (mkUploadStatus "./objects/a" false "");
                       recvReportClosed])) as Hperm
    by apply perm_swap.
  split; [exact Hperm|].
  destruct (Wait_order_irrelevant _ _ Hperm) as (H1 & H2 & H3).
  repeat split; assumption || reflexivity.
Defined.

End WaitOrder.

(** ** Filter, Sync and Wait together *)

Section IngestCounts.
Import golang oshub events.









End IngestCounts.

(** ** Untar: failure and staging *)

Section UntarEffects.
Import golang oshub.

Ltac untar_ops :=
  unfold MkdirAll, Create, WriteFile;
  repeat match goal with
    | |- context [match fault ?w ?o with _ => _ end] =>
        destruct (fault w o) eqn:?
    end.

(** Once unpacking has panicked, what follows in the archive is never read:
    nothing more is emitted and nothing more is written. *)
Theorem Untar_stops_at_panic (tarReader rest : list TarItem)
    (dstDir : string) (w : World) :
  panicked (Untar tarReader dstDir w) = true ->
  Untar (tarReader ++ rest) dstDir w = Untar tarReader dstDir w.
Proof.
  revert w. induction tarReader as [|item items IH]; intros w.
  - discriminate.
  - destruct item as [header data|msg]; cbn [Untar app]; [|reflexivity].
    destruct (Ascii.eqb (Typeflag header) TypeDir).
    + untar_ops; cbn [panicked]; [reflexivity | apply IH].
    + destruct (Ascii.eqb (Typeflag header) TypeReg); [|reflexivity].
      untar_ops; cbn [panicked]; try reflexivity.
      rewrite panicked_emit. intros Hp. rewrite IH by exact Hp. reflexivity.
Qed.

Lemma Untar_stops_at_panic_witness :
  let bad := [Entry (mkHeader "./objects/link" "2"%char ∅) ""] in
  panicked (Untar (scenario_tar.archive ++ bad) "/stage"
              scenario_tar.empty_stage) = true
  /\ Untar ((scenario_tar.archive ++ bad) ++ scenario_tar.archive) "/stage"
       scenario_tar.empty_stage
     = Untar (scenario_tar.archive ++ bad) "/stage" scenario_tar.empty_stage.
Proof.
  cbv zeta.
  assert (panicked
            (Untar (scenario_tar.archive
                    ++ [Entry (mkHeader "./objects/link" "2"%char ∅) ""])
               "/stage" scenario_tar.empty_stage) = true) as Hp
    by (vm_compute; reflexivity).
  split; [exact Hp|].
  exact (Untar_stops_at_panic _ scenario_tar.archive "/stage"
           scenario_tar.empty_stage Hp).
Defined.

(** Unpacking never removes a staged file. *)
Lemma Untar_keeps_files (tarReader : list TarItem) (dstDir : string)
    (w : World) (p : string) :
  is_Some (files w !! p) ->
  is_Some (files (final_world (Untar tarReader dstDir w)) !! p).
Proof.
  revert w. induction tarReader as [|item items IH]; intros w Hp.
  - exact Hp.
  - destruct item as [header data|msg]; cbn [Untar]; [|exact Hp].
    destruct (Ascii.eqb (Typeflag header) TypeDir).
    + untar_ops; cbn [final_world]; [exact Hp | apply IH, Hp].
    + destruct (Ascii.eqb (Typeflag header) TypeReg); [|exact Hp].
      untar_ops; cbn [final_world]; try exact Hp.
      * cbn [files put_file log].
        destruct (decide (gopath.Join dstDir (Name header) = p)) as [->|Hne].
        -- rewrite lookup_insert_eq. eauto.
        -- rewrite lookup_insert_ne by exact Hne. exact Hp.
      * rewrite final_world_emit_run. apply IH.
        cbn [files put_file log].
        destruct (decide (gopath.Join dstDir (Name header) = p)) as [->|Hne].
        -- rewrite lookup_insert_eq. eauto.
        -- rewrite lookup_insert_ne by exact Hne.
           destruct (decide (gopath.Join dstDir (Name header) = p))
             as [->|Hne']; [rewrite lookup_insert_eq; eauto|].
           rewrite lookup_insert_ne by exact Hne'. exact Hp.
Qed.

(** Every file that [Untar] emits has been written to the staging directory,
    at the path where [Sync], given the same directory, opens it. *)
Theorem Untar_emitted_staged (tarReader : list TarItem) (dstDir : string)
    (w : World) :
  Forall (fun f =>
            is_Some (files (final_world (Untar tarReader dstDir w))
                     !! gopath.Join dstDir (Path f)))
    (output (Untar tarReader dstDir w)).
Proof.
  revert w. induction tarReader as [|item items IH]; intros w.
  - constructor.
  - destruct item as [header data|msg]; cbn [Untar]; [|constructor].
    destruct (Ascii.eqb (Typeflag header) TypeDir).
    + untar_ops; cbn [output final_world]; [constructor | apply IH].
    + destruct (Ascii.eqb (Typeflag header) TypeReg); [|constructor].
      untar_ops; cbn [output]; try constructor.
      rewrite output_emit, final_world_emit_run. constructor; [|apply IH].
      cbn [Path]. apply Untar_keeps_files.
      cbn [files put_file log]. rewrite lookup_insert_eq. eauto.
Qed.

End UntarEffects.

(** ** The checksum record: FormatUint and ParseUint *)

Section ChecksumRecord.
Import golang oshub strconv strconv_format numeral.

Lemma value_from_shift (s : string) (n : Z) :
  value_from n s = n * 10 ^ Z.of_nat (String.length s) + value_from 0 s.
Proof.
  revert n. induction s as [|c r IH]; intros n; cbn [value_from String.length].
  - cbn. lia.
  - rewrite (IH (10 * n + _)), (IH (10 * 0 + _)).
    rewrite Nat2Z.inj_succ, Z.pow_succ_r by lia. ring.
Qed.

Lemma digit_char_byte (d : Z) :
  0 <= d < 10 -> byte_of (digit_char d) = 48 + d.
Proof.
  intros Hd. unfold byte_of, digit_char.
  rewrite nat_ascii_embedding by lia. lia.
Qed.

Lemma digit_char_is_digit (d : Z) :
  0 <= d < 10 -> is_digit (digit_char d) = true.
Proof.
  intros Hd. unfold is_digit. rewrite (digit_char_byte d Hd). lia.
Qed.

Lemma FormatUint_go_S (fuel : nat) (n : Z) (acc : string) :
  FormatUint_go (S fuel) n acc
  = if n <? 10 then String (digit_char (n mod 10)) acc
    else FormatUint_go fuel (n / 10) (String (digit_char (n mod 10)) acc).
Proof. reflexivity. Qed.

Lemma FormatUint_go_spec (fuel : nat) (n : Z) (acc : string) :
  0 <= n < 10 ^ Z.of_nat (S fuel) -> all_digits acc = true ->
  all_digits (FormatUint_go (S fuel) n acc) = true
  /\ FormatUint_go (S fuel) n acc <> ""
  /\ value_from 0 (FormatUint_go (S fuel) n acc)
     = n * 10 ^ Z.of_nat (String.length acc) + value_from 0 acc.
Proof.
  revert n acc. induction fuel as [|k IH]; intros n acc Hn Hacc;
    rewrite FormatUint_go_S.
  all: assert (0 <= n mod 10 < 10) as Hd by (apply Z.mod_pos_bound; lia).
  all: assert (all_digits (String (digit_char (n mod 10)) acc) = true)
         as Hacc'
         by (cbn [all_digits]; rewrite (digit_char_is_digit _ Hd); exact Hacc).
  all: assert (value_from 0 (String (digit_char (n mod 10)) acc)
               = (n mod 10) * 10 ^ Z.of_nat (String.length acc)
                 + value_from 0 acc) as Hval
         by (cbn [value_from];
             rewrite value_from_shift, (digit_char_byte _ Hd); ring).
  all: destruct (n <? 10) eqn:Hlt.
  1, 3: split; [exact Hacc'|]; split; [discriminate|];
        rewrite Hval, Z.mod_small by lia; reflexivity.
  - change (10 ^ Z.of_nat 1) with 10 in Hn. lia.
  - assert (0 <= n / 10 < 10 ^ Z.of_nat (S k)) as Hq.
    { rewrite (Nat2Z.inj_succ (S k)), Z.pow_succ_r in Hn by lia.
      split; [apply Z.div_pos; lia|].
      apply Z.div_lt_upper_bound; lia. }
    destruct (IH (n / 10) _ Hq Hacc') as (H1 & H2 & H3).
    split; [exact H1|]. split; [exact H2|].
    rewrite H3, Hval. cbn [String.length].
    rewrite Nat2Z.inj_succ, Z.pow_succ_r by lia.
    pose proof (Z.div_mod n 10 ltac:(lia)) as Hdm.
    set (p := 10 ^ Z.of_nat (String.length acc)).
    replace (n * p) with ((10 * (n / 10) + n mod 10) * p)
      by (rewrite <- Hdm; reflexivity).
    ring.
Qed.

(** [FormatUint] writes a decimal numeral that denotes its argument. *)
Lemma FormatUint_decimal (n : Z) :
  0 <= n < 2 ^ 64 ->
  is_decimal (FormatUint n) = true /\ decimal_value (FormatUint n) = n.
Proof.
  intros Hn. unfold FormatUint, is_decimal, decimal_value.
  destruct (FormatUint_go_spec 19 n "") as (H1 & H2 & H3);
    [change (10 ^ Z.of_nat 20) with 100000000000000000000; lia
    | reflexivity |].
  split.
  - rewrite H1, andb_true_r. apply negb_true_iff.
    destruct (String.eqb_spec (FormatUint_go 20 n "") ""); congruence.
  - rewrite H3. cbn. lia.
Qed.

Lemma declared_crc_crc_records (name : string) (typeflag : ascii) (crc : Z) :
  0 <= crc < 2 ^ 32 ->
  declared_crc (mkHeader name typeflag (oshub_tar.crc_records crc)) = crc.
Proof.
  intros Hcrc. rewrite declared_crc_spec. cbn [PAXRecords].
  unfold oshub_tar.crc_records. rewrite lookup_insert_eq.
  assert (uint64 crc = crc) as ->
    by (unfold uint64; apply Z.mod_small; lia).
  destruct (FormatUint_decimal crc ltac:(lia)) as [Hdec Hval].
  rewrite Hdec, Hval. cbn [andb].
  destruct (crc <? 2 ^ 64) eqn:E; [|lia].
  apply uint32_small, Hcrc.
Qed.

(** The checksum travels intact from the archiver to the unpacker: the
    record that [Tar] writes for a 32-bit checksum is a decimal numeral
    denoting it, and [Untar] reads it back as that checksum, whatever the
    name and the type of the entry. *)
Theorem declared_crc_of_Tar_record (name : string) (typeflag : ascii)
    (crc : Z) :
  0 <= crc < 2 ^ 32 ->
  is_decimal (FormatUint crc) = true
  /\ decimal_value (FormatUint crc) = crc
  /\ declared_crc (mkHeader name typeflag (oshub_tar.crc_records crc)) = crc.
Proof.
  intros Hcrc.
  destruct (FormatUint_decimal crc ltac:(lia)) as [Hdec Hval].
  split; [exact Hdec|]. split; [exact Hval|].
  apply declared_crc_crc_records, Hcrc.
Qed.

Lemma declared_crc_of_Tar_record_witness :
  0 <= 3808858755 < 2 ^ 32
  /\ strconv_format.FormatUint 3808858755 = "3808858755"
  /\ declared_crc
       (mkHeader "./objects/ab/cd.file" TypeReg
          (oshub_tar.crc_records 3808858755)) = 3808858755.
Proof.
  assert (0 <= 3808858755 < 2 ^ 32) as H by lia.
  split; [exact H|]. split; [vm_compute; reflexivity|].
  exact (proj2 (proj2
           (declared_crc_of_Tar_record "./objects/ab/cd.file" TypeReg
              3808858755 H))).
Defined.

End ChecksumRecord.

(** ** Tar, and Tar followed by Untar *)

Section TarFacts.
Import golang oshub localfs oshub_tar.

Lemma uint64_add_l (a b : Z) : uint64 (uint64 a + b) = uint64 (a + b).
Proof. unfold uint64. apply Zplus_mod_idemp_l. Qed.

Lemma int64_add_l (a b : Z) : int64 (int64 a + b) = int64 (a + b).
Proof.
  unfold int64. f_equal.
  replace ((a + 2 ^ 63) mod 2 ^ 64 - 2 ^ 63 + b + 2 ^ 63)
    with ((a + 2 ^ 63) mod 2 ^ 64 + b) by ring.
  rewrite Zplus_mod_idemp_l. f_equal. ring.
Qed.

Lemma Tar_loop_report (fs : FileSystem) (repoDir : string)
    (files : list (string * Z)) (sr0 : SendReport) (a b c : Z)
    (stream : list TarItem) (sr : SendReport) :
  FileNumb sr0 = uint64 a -> ObjNumb sr0 = uint64 b -> Bytes sr0 = int64 c ->
  Tar_loop fs repoDir files sr0 = (stream, Some sr) ->
  let regs := regular_entries fs repoDir files in
  map item_name stream = map fst files
  /\ FileNumb sr = uint64 (a + Z.of_nat (length regs))
  /\ ObjNumb sr
     = uint64 (b + Z.of_nat
                     (length (List.filter
                                (fun e => HasPrefix e.1 "./objects") regs)))
  /\ Bytes sr = int64 (c + sizes fs repoDir regs).
Proof.
  revert sr0 a b c stream.
  induction files as [|[file crc] rest IH];
    intros sr0 a b c stream Ha Hb Hc Htar; cbv zeta.
  - cbn in Htar. injection Htar as <- <-. cbn.
    rewrite !Z.add_0_r. auto.
  - cbn [Tar_loop] in Htar.
    unfold regular_entries, sizes. cbn [List.filter fst].
    fold (regular_entries fs repoDir rest).
    unfold payload at 1.
    destruct (Stat fs (gopath.Join repoDir file)) as [[n data [|]|n ch]|e]
      eqn:Hstat; try discriminate.
    + destruct (Tar_loop fs repoDir rest _) as [stream' report] eqn:Hrest.
      injection Htar as <- ->.
      match type of Hrest with
      | Tar_loop _ _ _ ?s = _ =>
          specialize (IH s (a + 1)
                        (b + (if HasPrefix file "./objects" then 1 else 0))
                        (c + Z.of_nat (String.length data)) stream')
      end.
      cbv zeta in IH.
      destruct IH as (H1 & H2 & H3 & H4).
      * cbn [FileNumb]. rewrite Ha. apply uint64_add_l.
      * cbn [ObjNumb]. destruct (HasPrefix file "./objects").
        -- rewrite Hb. apply uint64_add_l.
        -- rewrite Hb, Z.add_0_r. reflexivity.
      * cbn [Bytes]. rewrite Hc. apply int64_add_l.
      * exact Hrest.
      * cbn [map item_name Name fst List.filter length fold_right].
        split; [f_equal; exact H1|]. split; [rewrite H2; f_equal; lia|].
        split.
        -- rewrite H3. f_equal.
           destruct (HasPrefix file "./objects"); cbn [length]; lia.
        -- rewrite H4. f_equal. unfold sizes, payload. cbn [fst].
           rewrite Hstat. lia.
    + destruct (Tar_loop fs repoDir rest _) as [stream' report] eqn:Hrest.
      injection Htar as <- ->.
      destruct (IH sr0 a b c stream' Ha Hb Hc Hrest) as (H1 & H2 & H3 & H4).
      cbn [map item_name Name fst].
      split; [f_equal; exact H1|]. auto.
Qed.

(** The report that [Tar] sends: files and bytes count the regular files
    only (directories are written to the archive but not counted), and a file
    counts as an object when its path starts with [./objects], without a
    trailing slash; the counters wrap as [uint] and [int64].  The archive has
    one entry per entry of the map, in the order of the iteration. *)
Theorem Tar_report (fs : FileSystem) (repoDir : string)
    (files : list (string * Z)) (stream : list TarItem) (sr : SendReport) :
  Tar fs repoDir files = (stream, Some sr) ->
  let regs := regular_entries fs repoDir files in
  map item_name stream = map fst files
  /\ FileNumb sr = uint64 (Z.of_nat (length regs))
  /\ ObjNumb sr
     = uint64 (Z.of_nat
                 (length (List.filter
                            (fun e => HasPrefix e.1 "./objects") regs)))
  /\ Bytes sr = int64 (sizes fs repoDir regs).
Proof.
  intros Htar.
  exact (Tar_loop_report fs repoDir files (mkSendReport 0 0 0) 0 0 0 stream sr
           eq_refl eq_refl eq_refl Htar).
Qed.

End TarFacts.

Section TarUntar.
Import golang oshub localfs oshub_tar.

Lemma Tar_report_witness :
  let r := Tar scenario_client.repo_fs "/repo" scenario_push.missing in
  map item_name r.1 = ["./objects/ab/cd.file"; "./refs"; "./config"]
  /\ r.2 = Some (mkSendReport 2 1 13).
Proof.
  cbv zeta.
  destruct (Tar scenario_client.repo_fs "/repo" scenario_push.missing)
    as [stream [sr|]] eqn:Htar; [|vm_compute in Htar; discriminate Htar].
  destruct (Tar_report _ _ _ _ _ Htar) as (H1 & H2 & H3 & H4).
  cbn [fst snd]. split; [exact H1|].
  f_equal. destruct sr as [f o b]. cbn [FileNumb ObjNumb Bytes] in *.
  subst f o b. vm_compute. reflexivity.
Defined.

Lemma Tar_loop_unopenable (fs : FileSystem) (repoDir : string)
    (before after : list (string * Z)) (e : string * Z) (sr0 : SendReport) :
  cannot_open fs repoDir e = true ->
  let r := Tar_loop fs repoDir (before ++ e :: after) sr0 in
  r.2 = None
  /\ (length r.1 <= length before)%nat
  /\ Forall (fun item => In (item_name item) (map fst before)) r.1.
Proof.
  intros Hcannot. cbv zeta. revert sr0.
  induction before as [|[file crc] rest IH]; intros sr0.
  - destruct e as [file crc]. cbn [app Tar_loop].
    unfold cannot_open in Hcannot. cbn [fst] in Hcannot.
    destruct (Stat fs (gopath.Join repoDir file)) as [[n data [|]|n ch]|err];
      try discriminate Hcannot; cbn; auto.
  - cbn [app Tar_loop].
    destruct (Stat fs (gopath.Join repoDir file)) as [[n data [|]|n ch]|err].
    + match goal with
      | |- context [Tar_loop fs repoDir (rest ++ e :: after) ?s] =>
          destruct (IH s) as (H1 & H2 & H3);
          destruct (Tar_loop fs repoDir (rest ++ e :: after) s) as [st rp]
      end.
      cbn [fst snd length map] in *. split; [exact H1|]. split; [lia|].
      constructor; [left; reflexivity|].
      eapply Forall_impl; [exact H3|]. intros item Hin. right. exact Hin.
    + cbn. split; [reflexivity|]. split; [lia | constructor].
    + destruct (IH sr0) as (H1 & H2 & H3).
      destruct (Tar_loop fs repoDir (rest ++ e :: after) sr0) as [st rp].
      cbn [fst snd length map] in *. split; [exact H1|]. split; [lia|].
      constructor; [left; reflexivity|].
      eapply Forall_impl; [exact H3|]. intros item Hin. right. exact Hin.
    + cbn. split; [reflexivity|]. split; [lia | constructor].
Qed.

(** When a path of the map cannot be opened below the repository (it is
    missing or unreadable), [Tar] panics there: it sends no report, and the
    stream holds entries only for paths that the loop met before that one. *)
Theorem Tar_unopenable_no_report (fs : FileSystem) (repoDir : string)
    (before after : list (string * Z)) (e : string * Z) :
  cannot_open fs repoDir e = true ->
  let r := Tar fs repoDir (before ++ e :: after) in
  r.2 = None
  /\ (length r.1 <= length before)%nat
  /\ Forall (fun item => In (item_name item) (map fst before)) r.1.
Proof. intros Hcannot. apply Tar_loop_unopenable, Hcannot. Qed.

Lemma Tar_unopenable_no_report_witness :
  let before := [("./config", crc32.Sum32 "[core]")] in
  let e := ("./objects/zz/none.file", 0) in
  let after := [("./objects/ab/cd.file", crc32.Sum32 "payload")] in
  let r := Tar scenario_client.repo_fs "/repo" (before ++ e :: after) in
  cannot_open scenario_client.repo_fs "/repo" e = true
  /\ r.2 = None
  /\ (length r.1 <= 1)%nat.
Proof.
  cbv zeta.
  assert (cannot_open scenario_client.repo_fs "/repo"
            ("./objects/zz/none.file", 0) = true) as Hc
    by (vm_compute; reflexivity).
  split; [exact Hc|].
  destruct (Tar_unopenable_no_report scenario_client.repo_fs "/repo"
              [("./config", crc32.Sum32 "[core]")]
              [("./objects/ab/cd.file", crc32.Sum32 "payload")]
              ("./objects/zz/none.file", 0) Hc) as (H1 & H2 & _).
  split; [exact H1 | exact H2].
Defined.

End TarUntar.

Section RoundTrip.
Import golang oshub localfs oshub_tar.

Lemma Tar_loop_Untar (fs : FileSystem) (repoDir dstDir : string)
    (files : list (string * Z)) (sr0 sr : SendReport)
    (stream : list TarItem) (w : World) :
  Tar_loop fs repoDir files sr0 = (stream, Some sr) ->
  Forall (fun e => 0 <= e.2 < 2 ^ 32) files ->
  (forall o, fault w o = None) ->
  let r := Untar stream dstDir w in
  let regs := regular_entries fs repoDir files in
  panicked r = false
  /\ output r = map (fun e => mkRepoFile e.1 e.2) regs
  /\ oshub.files (final_world r)
     = staged fs repoDir dstDir regs (oshub.files w)
  /\ bucket (final_world r) = bucket w.
Proof.
  revert sr0 stream w.
  induction files as [|[file crc] rest IH];
    intros sr0 stream w Htar Hcrc Hnf; cbv zeta.
  - cbn in Htar. injection Htar as <- <-. cbn. auto.
  - cbn [Tar_loop] in Htar.
    apply Forall_cons in Hcrc as [Hc Hcrc]. cbn [snd] in Hc.
    unfold regular_entries, staged. cbn [List.filter fst].
    fold (regular_entries fs repoDir rest).
    destruct (Stat fs (gopath.Join repoDir file)) as [[n data [|]|n ch]|e]
      eqn:Hstat; try discriminate.
    + destruct (Tar_loop fs repoDir rest _) as [stream' report] eqn:Hrest.
      injection Htar as <- ->.
      cbn [Untar Name Typeflag].
      change (Ascii.eqb TypeReg TypeDir) with false.
      change (Ascii.eqb TypeReg TypeReg) with true. cbv iota.
      unfold MkdirAll, Create, WriteFile.
      repeat (cbn [fault log put_dir put_file]; rewrite ?Hnf).
      rewrite panicked_emit, output_emit, final_world_emit_run.
      match goal with
      | |- context [Untar stream' dstDir ?w1] =>
          destruct (IH _ stream' w1 Hrest Hcrc) as (H1 & H2 & H3 & H4);
            [exact Hnf|]
      end.
      split; [exact H1|]. split.
      * cbn [map fst snd]. rewrite H2. f_equal.
        rewrite (declared_crc_crc_records file TypeReg crc Hc).
        reflexivity.
      * split; [|exact H4]. rewrite H3.
        cbn [oshub.files log put_file put_dir fold_left fst].
        unfold payload at 2. rewrite Hstat.
        rewrite insert_insert_eq. reflexivity.
    + destruct (Tar_loop fs repoDir rest sr0) as [stream' report] eqn:Hrest.
      injection Htar as <- ->.
      cbn [Untar Name Typeflag].
      change (Ascii.eqb TypeDir TypeDir) with true. cbv iota.
      unfold MkdirAll.
      repeat (cbn [fault log put_dir put_file]; rewrite ?Hnf).
      match goal with
      | |- context [Untar stream' dstDir ?w1] =>
          destruct (IH _ stream' w1 Hrest Hcrc) as (H1 & H2 & H3 & H4);
            [exact Hnf|]
      end.
      split; [exact H1|]. split; [exact H2|]. split; [|exact H4].
      rewrite H3. reflexivity.
Qed.

(** Round trip of the archive: when [Tar] completes for a map of 32-bit
    checksums and no staging operation fails, [Untar] of the archive does not
    panic, emits exactly the regular files of the map, each with its path and
    its checksum, in the order of the archive, stages the bytes that [Tar]
    read, and leaves the bucket alone. *)
Theorem Tar_Untar_round_trip (fs : FileSystem) (repoDir dstDir : string)
    (files : list (string * Z)) (stream : list TarItem) (sr : SendReport)
    (w : World) :
  Tar fs repoDir files = (stream, Some sr) ->
  Forall (fun e => 0 <= e.2 < 2 ^ 32) files ->
  (forall o, fault w o = None) ->
  let r := Untar stream dstDir w in
  let regs := regular_entries fs repoDir files in
  panicked r = false
  /\ output r = map (fun e => mkRepoFile e.1 e.2) regs
  /\ oshub.files (final_world r)
     = staged fs repoDir dstDir regs (oshub.files w)
  /\ bucket (final_world r) = bucket w.
Proof. apply Tar_loop_Untar. Qed.

Lemma Tar_Untar_round_trip_witness :
  let r := Untar (Tar scenario_client.repo_fs "/repo" scenario_push.missing).1
             "/stage" scenario_tar.empty_stage in
  panicked r = false
  /\ output r
     = [ mkRepoFile "./objects/ab/cd.file" (crc32.Sum32 "payload");
         mkRepoFile "./config" (crc32.Sum32 "[core]") ]
  /\ oshub.files (final_world r)
     = <["/stage/config" := "[core]"]>
         (<["/stage/objects/ab/cd.file" := "payload"]> ∅).
Proof.
  cbv zeta.
  destruct (Tar scenario_client.repo_fs "/repo" scenario_push.missing)
    as [stream [sr|]] eqn:Htar; [|vm_compute in Htar; discriminate Htar].
  assert (Forall (fun e : string * Z => 0 <= e.2 < 2 ^ 32)
            scenario_push.missing) as Hcrc
    by (repeat constructor; vm_compute; discriminate).
  destruct (Tar_Untar_round_trip scenario_client.repo_fs "/repo" "/stage"
              scenario_push.missing stream sr scenario_tar.empty_stage
              Htar Hcrc (fun _ => eq_refl)) as (H1 & H2 & H3 & _).
  cbn [fst]. split; [exact H1|]. split.
  - rewrite H2. vm_compute. reflexivity.
  - rewrite H3. vm_compute. reflexivity.
Defined.

End RoundTrip.

(** ** The batcher loses no file *)

Section PushCoverage.
Import golang fiopush coverage.

Lemma In_list_insert {A} (l : list A) (i : nat) (x y : A) :
  In y (<[i := x]> l) -> y = x \/ In y l.
Proof.
  revert i. induction l as [|a l IH]; intros [|i]; cbn; auto.
  - intros [<-|H]; auto.
  - intros [<-|H]; auto. destruct (IH i H); auto.
Qed.

Lemma In_list_insert_new {A} (l : list A) (i : nat) (x : A) :
  (i < length l)%nat -> In x (<[i := x]> l).
Proof.
  revert i. induction l as [|a l IH]; intros [|i]; cbn; try lia; auto.
  intros H. right. apply IH. lia.
Qed.

Lemma In_list_insert_other {A} (l : list A) (i : nat) (x y : A) :
  In y l -> l !! i <> Some y -> In y (<[i := x]> l).
Proof.
  revert i. induction l as [|a l IH]; intros [|i]; cbn; auto.
  - intros [->|H] Hne; [congruence | auto].
  - intros [->|H] Hne; auto.
Qed.

Lemma receive_length (st : PushState) (i : nat) (object : oshub.RepoFile) :
  length (objectsToCheck (receive st i object)) = length (objectsToCheck st).
Proof.
  unfold receive. destruct (_ >? _); cbn [objectsToCheck];
    apply length_insert.
Qed.

(** After a reception, the state holds what it held before, except that the
    path received now maps to the checksum received. *)
Lemma receive_holds (st : PushState) (i : nat) (object : oshub.RepoFile)
    (k : string) (v : Z) :
  length (objectsToCheck st) = concurrentPusherNumb ->
  holds (receive st i object) k v ->
  (k = oshub.Path object /\ v = oshub.CRC32 object) \/ holds st k v.
Proof.
  intros Hlen. unfold receive, holds.
  set (j := (i mod concurrentPusherNumb)%nat).
  assert (j < length (objectsToCheck st))%nat as Hj
    by (rewrite Hlen; apply Nat.mod_upper_bound; discriminate).
  destruct (lookup_lt_is_Some_2 _ _ Hj) as [m0 Hm0].
  rewrite Hm0. cbn [default from_option id].
  assert (forall m, m = <[oshub.Path object := oshub.CRC32 object]> m0 ->
                    m !! k = Some v ->
                    (k = oshub.Path object /\ v = oshub.CRC32 object)
                    \/ m0 !! k = Some v) as Hins.
  { intros m -> Hk. destruct (decide (oshub.Path object = k)) as [<-|Hne].
    - rewrite lookup_insert_eq in Hk. left. split; congruence.
    - rewrite lookup_insert_ne in Hk by exact Hne. auto. }
  assert (In m0 (objectsToCheck st)) as Hin0
    by (apply list_elem_of_In, list_elem_of_lookup; eauto).
  destruct (_ >? _); cbn [checked objectsToCheck].
  - intros [(m & Hm & Hk)|(m & Hm & Hk)].
    + apply in_app_or in Hm as [Hm|[<-|[]]]; [right; left; eauto|].
      destruct (Hins _ eq_refl Hk) as [?|?]; [auto | right; right; eauto].
    + apply In_list_insert in Hm as [->|Hm];
        [rewrite lookup_empty in Hk; discriminate | right; right; eauto].
  - intros [(m & Hm & Hk)|(m & Hm & Hk)]; [right; left; eauto|].
    apply In_list_insert in Hm as [->|Hm]; [|right; right; eauto].
    destruct (Hins _ eq_refl Hk) as [?|?]; [auto | right; right; eauto].
Qed.

(** The path received is held afterwards, with the checksum received. *)
Lemma receive_holds_new (st : PushState) (i : nat) (object : oshub.RepoFile) :
  length (objectsToCheck st) = concurrentPusherNumb ->
  holds (receive st i object) (oshub.Path object) (oshub.CRC32 object).
Proof.
  intros Hlen. unfold receive, holds.
  set (j := (i mod concurrentPusherNumb)%nat).
  assert (j < length (objectsToCheck st))%nat as Hj
    by (rewrite Hlen; apply Nat.mod_upper_bound; discriminate).
  destruct (_ >? _); cbn [checked objectsToCheck].
  - left. eexists. split; [apply in_or_app; right; left; reflexivity|].
    apply lookup_insert_eq.
  - right. eexists. split; [apply In_list_insert_new, Hj|].
    apply lookup_insert_eq.
Qed.

(** A path held before is still held afterwards (with the checksum
    received now, if it is the path received now). *)
Lemma receive_keeps_key (st : PushState) (i : nat) (object : oshub.RepoFile)
    (k : string) (v : Z) :
  length (objectsToCheck st) = concurrentPusherNumb ->
  holds st k v -> exists v', holds (receive st i object) k v'.
Proof.
  intros Hlen Hk.
  destruct (decide (k = oshub.Path object)) as [->|Hne];
    [eexists; apply receive_holds_new, Hlen|].
  exists v. revert Hk. unfold receive, holds.
  set (j := (i mod concurrentPusherNumb)%nat).
  assert (j < length (objectsToCheck st))%nat as Hj
    by (rewrite Hlen; apply Nat.mod_upper_bound; discriminate).
  destruct (lookup_lt_is_Some_2 _ _ Hj) as [m0 Hm0].
  rewrite Hm0. cbn [default from_option id].
  intros [(m & Hm & Hk)|(m & Hm & Hk)].
  - destruct (_ >? _); cbn [checked objectsToCheck]; left; exists m;
      (split; [|exact Hk]); [apply in_or_app; left|]; exact Hm.
  - destruct (decide (m = m0)) as [->|Hmne].
    + destruct (_ >? _); cbn [checked objectsToCheck].
      * left. eexists. split; [apply in_or_app; right; left; reflexivity|].
        rewrite lookup_insert_ne by congruence. exact Hk.
      * right. eexists. split; [apply In_list_insert_new, Hj|].
        rewrite lookup_insert_ne by congruence. exact Hk.
    + destruct (_ >? _); cbn [checked objectsToCheck]; right; exists m;
        (split; [|exact Hk]); apply In_list_insert_other; congruence.
Qed.

End PushCoverage.

Section PushCoverageMain.
Import golang fiopush coverage.

Lemma drain_holds (st : PushState) (k : string) (v : Z) :
  holds st k v <-> exists m, In m (drain st) /\ m !! k = Some v.
Proof.
  unfold holds, drain. split.
  - intros [(m & Hm & Hk)|(m & Hm & Hk)]; exists m; (split; [|exact Hk]);
      apply in_or_app; [left; exact Hm | right].
    apply filter_In. split; [exact Hm|].
    apply negb_true_iff, Nat.eqb_neq. intros Hz.
    apply map_size_empty_inv in Hz. subst m.
    rewrite lookup_empty in Hk. discriminate.
  - intros (m & Hm & Hk). apply in_app_or in Hm as [Hm|Hm]; [left; eauto|].
    apply filter_In in Hm as [Hm _]. right. eauto.
Qed.

Lemma push_run_sound (sched : list nat) (fileQueue : list oshub.RepoFile)
    (st : PushState) (m : gmap string Z) (k : string) (v : Z) :
  length (objectsToCheck st) = concurrentPusherNumb ->
  In m (push_run sched fileQueue st) -> m !! k = Some v ->
  holds st k v
  \/ exists f, In f fileQueue /\ oshub.Path f = k /\ oshub.CRC32 f = v.
Proof.
  revert sched st. induction fileQueue as [|object rest IH];
    intros sched st Hlen Hm Hk.
  - left. apply drain_holds. eauto.
  - cbn [push_run] in Hm.
    destruct (IH _ _ ltac:(rewrite receive_length; exact Hlen) Hm Hk)
      as [Hh|(f & Hf & Hp & Hc)].
    + destruct (receive_holds _ _ _ _ _ Hlen Hh) as [[-> ->]|Hst];
        [right; exists object; split; [left|]; auto | left; exact Hst].
    + right. exists f. split; [right; exact Hf | auto].
Qed.

Lemma push_run_complete (sched : list nat) (fileQueue : list oshub.RepoFile)
    (st : PushState) (k : string) :
  length (objectsToCheck st) = concurrentPusherNumb ->
  (exists v, holds st k v) \/ In k (map oshub.Path fileQueue) ->
  exists m v, In m (push_run sched fileQueue st) /\ m !! k = Some v.
Proof.
  revert sched st. induction fileQueue as [|object rest IH];
    intros sched st Hlen Hk.
  - destruct Hk as [[v Hv]|[]]. apply drain_holds in Hv as (m & Hm & Hmk).
    eauto.
  - cbn [push_run]. apply IH; [rewrite receive_length; exact Hlen|].
    destruct Hk as [[v Hv]|[<-|Hin]].
    + left. eapply receive_keeps_key; eassumption.
    + left. eexists. apply receive_holds_new, Hlen.
    + right. exact Hin.
Qed.

(** Whatever the scheduler does, no file is lost or invented by the
    batcher: every path of the queue is a key of some batch handed to
    [checkRepo], and every entry of every batch is the path and the checksum
    of a file of the queue. *)
Theorem push_covers_queue (sched : list nat)
    (fileQueue : list oshub.RepoFile) :
  (forall k, In k (map oshub.Path fileQueue) ->
             exists m v, In m (push sched fileQueue) /\ m !! k = Some v)
  /\ (forall m k v,
        In m (push sched fileQueue) -> m !! k = Some v ->
        exists f, In f fileQueue /\ oshub.Path f = k /\ oshub.CRC32 f = v).
Proof.
  assert (length (objectsToCheck
                    (mkPushState (replicate concurrentPusherNumb ∅) []))
          = concurrentPusherNumb) as Hlen
    by (cbn [objectsToCheck]; apply length_replicate).
  split.
  - intros k Hk. apply push_run_complete; [exact Hlen | right; exact Hk].
  - intros m k v Hm Hk.
    destruct (push_run_sound _ _ _ _ _ _ Hlen Hm Hk)
      as [[(m' & Hm' & Hk')|(m' & Hm' & Hk')]|Hf]; [| |exact Hf].
    + destruct Hm'.
    + cbn [objectsToCheck] in Hm'.
      apply list_elem_of_In, elem_of_replicate in Hm' as [-> _].
      rewrite lookup_empty in Hk'. discriminate.
Qed.

Lemma push_covers_queue_witness :
  exists m v,
    In m (push [0%nat; 1%nat; 0%nat] (scenario_client.numbered_files 3))
    /\ m !! "./objects/2" = Some v.
Proof.
  apply (proj1 (push_covers_queue [0%nat; 1%nat; 0%nat]
                  (scenario_client.numbered_files 3))).
  vm_compute. auto.
Defined.

End PushCoverageMain.

(** ** The collector of the client *)

Section Collector.
Import golang oshub collector.

Lemma uint_add_l (a b : Z) : uint (uint a + b) = uint (a + b).
Proof. unfold uint. apply Zplus_mod_idemp_l. Qed.

Lemma collector_int64_add_l (a b : Z) : int64 (int64 a + b) = int64 (a + b).
Proof.
  unfold int64. f_equal.
  replace ((a + 2 ^ 63) mod 2 ^ 64 - 2 ^ 63 + b + 2 ^ 63)
    with ((a + 2 ^ 63) mod 2 ^ 64 + b) by ring.
  rewrite Zplus_mod_idemp_l. f_equal. ring.
Qed.

Lemma uint_swap (a x y : Z) : uint (uint (a + x) + y) = uint (uint (a + y) + x).
Proof. rewrite !uint_add_l. f_equal. lia. Qed.

Lemma int64_swap (a x y : Z) :
  int64 (int64 (a + x) + y) = int64 (int64 (a + y) + x).
Proof. rewrite !collector_int64_add_l. f_equal. lia. Qed.

Lemma uint32_swap (a x y : Z) :
  uint32 (uint32 (a + x) + y) = uint32 (uint32 (a + y) + x).
Proof. rewrite !uint32_add_l. f_equal. lia. Qed.

Lemma wait_step_comm (total : Report) (a b : StatusMsg) :
  wait_step (wait_step total a) b = wait_step (wait_step total b) a.
Proof.
  destruct a as [x| |[x|]| |x], b as [y| |[y|]| |y];
    cbn [wait_step Checked Sent Synced FileNumb ObjNumb Bytes
         UploadedFileNumb SyncedFileNumb UploadSyncedFileNumb SyncFailedNumb];
    try reflexivity.
  all: f_equal;
    first [ apply uint_swap
          | f_equal;
            first [apply uint_swap | apply int64_swap | apply uint32_swap] ].
Qed.

Lemma fold_left_Permutation {A B} (f : A -> B -> A) (l1 l2 : list B) :
  (forall s a b, f (f s a) b = f (f s b) a) ->
  Permutation l1 l2 -> forall s, fold_left f l1 s = fold_left f l2 s.
Proof.
  intros Hcomm. induction 1 as [|x l1 l2 _ IH|x y l|l1 l2 l3 _ IH1 _ IH2];
    intros s; cbn [fold_left].
  - reflexivity.
  - apply IH.
  - rewrite Hcomm. reflexivity.
  - rewrite IH1. apply IH2.
Qed.

(** The report of the client is a sum: whatever the order in which the three
    queues deliver, the same messages give the same report. *)
Theorem wait_order_irrelevant (msgs1 msgs2 : list StatusMsg) :
  Permutation msgs1 msgs2 -> wait msgs1 = wait msgs2.
Proof.
  intros Hperm. unfold wait.
  apply fold_left_Permutation; [apply wait_step_comm | exact Hperm].
Qed.

Lemma wait_order_irrelevant_witness :
  let sync := mkSyncReport 3 3 2 1 in
  let send := mkSendReport 3 1 13 in
  Permutation [gotCheck 3; gotSend (Some send); gotSync sync; gotCheck 2]
    [gotSync sync; gotCheck 2; gotCheck 3; gotSend (Some send)]
  /\ wait [gotCheck 3; gotSend (Some send); gotSync sync; gotCheck 2]
     = wait [gotSync sync; gotCheck 2; gotCheck 3; gotSend (Some send)]
  /\ wait [gotCheck 3; gotSend (Some send); gotSync sync; gotCheck 2]
     = mkReport 5 send sync.
Proof.
  cbv zeta.
  assert (Permutation
            [gotCheck 3; gotSend (Some (mkSendReport 3 1 13));
             gotSync (mkSyncReport 3 3 2 1); gotCheck 2]
            [gotSync (mkSyncReport 3 3 2 1); gotCheck 2; gotCheck 3;
             gotSend (Some (mkSendReport 3 1 13))]) as Hperm.
  { apply (Permutation_trans (l' := [gotCheck 3;
                                     gotSend (Some (mkSendReport 3 1 13));
                                     gotCheck 2;
                                     gotSync (mkSyncReport 3 3 2 1)])).
    - do 2 apply perm_skip. apply perm_swap.
    - change [gotSync (mkSyncReport 3 3 2 1); gotCheck 2; gotCheck 3;
              gotSend (Some (mkSendReport 3 1 13))]
        with ([gotSync (mkSyncReport 3 3 2 1); gotCheck 2]
              ++ [gotCheck 3; gotSend (Some (mkSendReport 3 1 13))])%list.
      change [gotCheck 3; gotSend (Some (mkSendReport 3 1 13)); gotCheck 2;
              gotSync (mkSyncReport 3 3 2 1)]
        with ([gotCheck 3; gotSend (Some (mkSendReport 3 1 13))]
              ++ [gotCheck 2; gotSync (mkSyncReport 3 3 2 1)])%list.
      eapply Permutation_trans; [apply Permutation_app_comm|].
      apply Permutation_app_tail, perm_swap. }
  split; [exact Hperm|]. split.
  - exact (wait_order_irrelevant _ _ Hperm).
  - vm_compute. reflexivity.
Defined.

(** The collector counts what it received before the sync queue closed:
    [Checked] is the sum of the batch sizes received, as a [uint]. *)
Lemma wait_Checked_fold (msgs : list StatusMsg) (total : Report) (a : Z) :
  Checked total = uint a ->
  Checked (fold_left wait_step msgs total) = uint (a + checked_sum msgs).
Proof.
  revert total a. induction msgs as [|m rest IH]; intros total a Ha.
  - cbn. rewrite Z.add_0_r. exact Ha.
  - cbn [fold_left checked_sum fold_right].
    destruct m as [c| |[s|]| |s]; try (apply IH; exact Ha).
    rewrite Z.add_assoc. apply IH. cbn. rewrite Ha. apply uint_add_l.
Qed.

End Collector.

(** ** The batcher and the collector together *)

Section Accounting.
Import golang fiopush coverage collector accounting.

Lemma entries_app (l1 l2 : list (gmap string Z)) :
  entries (l1 ++ l2) = (entries l1 + entries l2)%nat.
Proof. unfold entries. rewrite map_app, list_sum_app. reflexivity. Qed.

Lemma entries_insert (l : list (gmap string Z)) (i : nat)
    (m0 m : gmap string Z) :
  l !! i = Some m0 ->
  (entries (<[i := m]> l) + size m0 = entries l + size m)%nat.
Proof.
  unfold entries. revert i. induction l as [|a l IH]; intros [|i];
    cbn -[size]; try discriminate.
  - intros [= ->]. unfold list_sum. lia.
  - intros H. specialize (IH i H).
    rewrite <- !Nat.add_assoc. f_equal. exact IH.
Qed.

Lemma entries_cons (m : gmap string Z) (l : list (gmap string Z)) :
  entries (m :: l) = (size m + entries l)%nat.
Proof. reflexivity. Qed.

Lemma entries_filter_nonempty (l : list (gmap string Z)) :
  entries (List.filter (fun m => negb (size m =? 0)%nat) l) = entries l.
Proof.
  induction l as [|m l IH]; cbn [List.filter]; [reflexivity|].
  destruct (size m =? 0)%nat eqn:E; cbn [negb]; rewrite ?entries_cons, IH.
  - apply Nat.eqb_eq in E. lia.
  - reflexivity.
Qed.

(** Receiving a path that the state does not hold adds one entry. *)
Lemma receive_entries (st : PushState) (i : nat) (object : oshub.RepoFile) :
  length (objectsToCheck st) = concurrentPusherNumb ->
  (forall v, ~ holds st (oshub.Path object) v) ->
  (entries (checked (receive st i object))
   + entries (objectsToCheck (receive st i object))
   = S (entries (checked st) + entries (objectsToCheck st)))%nat.
Proof.
  intros Hlen Hfresh. unfold receive.
  set (j := (i mod concurrentPusherNumb)%nat).
  assert (j < length (objectsToCheck st))%nat as Hj
    by (rewrite Hlen; apply Nat.mod_upper_bound; discriminate).
  destruct (lookup_lt_is_Some_2 _ _ Hj) as [m0 Hm0].
  rewrite Hm0. cbn [default from_option id].
  assert (m0 !! oshub.Path object = None) as Hnone.
  { destruct (m0 !! oshub.Path object) as [v|] eqn:E; [|reflexivity].
    exfalso. apply (Hfresh v). right. exists m0. split; [|exact E].
    apply list_elem_of_In, list_elem_of_lookup. eauto. }
  pose proof (map_size_insert_None (oshub.Path object) (oshub.CRC32 object)
                m0 Hnone) as Hsize.
  destruct (_ >? _); cbn [checked objectsToCheck].
  - rewrite entries_app.
    pose proof (entries_insert _ j m0 ∅ Hm0) as Hins.
    rewrite map_size_empty in Hins.
    rewrite entries_cons. change (entries []) with 0%nat. lia.
  - pose proof (entries_insert _ j m0
                  (<[oshub.Path object := oshub.CRC32 object]> m0) Hm0).
    lia.
Qed.

Lemma push_run_entries (sched : list nat) (fileQueue : list oshub.RepoFile)
    (st : PushState) :
  length (objectsToCheck st) = concurrentPusherNumb ->
  List.NoDup (map oshub.Path fileQueue) ->
  (forall k v, holds st k v -> ~ In k (map oshub.Path fileQueue)) ->
  entries (push_run sched fileQueue st)
  = (entries (checked st) + entries (objectsToCheck st)
     + length fileQueue)%nat.
Proof.
  revert sched st. induction fileQueue as [|object rest IH];
    intros sched st Hlen Hnd Hheld.
  - cbn [push_run length]. unfold drain.
    rewrite entries_app, entries_filter_nonempty. lia.
  - cbn [push_run length]. cbn [map] in Hnd, Hheld.
    apply List.NoDup_cons_iff in Hnd as [Hnew Hnd].
    rewrite IH; [|rewrite receive_length; exact Hlen | exact Hnd |].
    + rewrite receive_entries; [lia | exact Hlen |].
      intros v Hv. apply (Hheld _ _ Hv). left. reflexivity.
    + intros k v Hv.
      destruct (receive_holds _ _ _ _ _ Hlen Hv) as [[-> _]|Hst];
        [exact Hnew|].
      intros Hin. apply (Hheld _ _ Hst). right. exact Hin.
Qed.

Lemma checked_sum_check_messages (batches : list (gmap string Z)) :
  checked_sum (check_messages batches) = Z.of_nat (entries batches).
Proof.
  induction batches as [|m l IH]; [reflexivity|].
  rewrite entries_cons, Nat2Z.inj_add, <- IH. reflexivity.
Qed.

Lemma entries_submseteq (delivered batches : list (gmap string Z)) :
  delivered ⊆+ batches -> (entries delivered <= entries batches)%nat.
Proof.
  induction 1 as [|m l1 l2 _ IH|m1 m2 l|m l1 l2 _ IH|l1 l2 l3 _ IH1 _ IH2];
    rewrite ?entries_cons in *; lia.
Qed.

(** When the paths of the queue are distinct, as those of a walk are, the
    batch sizes that the workers send on the check queue add up to the
    number of files, whatever the scheduler does.  The collector returns
    when it sees the sync queue closed, and counts that are still in the
    check queue then are lost: its [Checked] is the sum (as a [uint]) of the
    sizes of the batches whose count it received, which is at most the
    number of files, and is the number of files when every count was
    received. *)
Theorem push_checked_total (sched : list nat)
    (fileQueue : list oshub.RepoFile) (delivered : list (gmap string Z)) :
  List.NoDup (map oshub.Path fileQueue) ->
  delivered ⊆+ push sched fileQueue ->
  entries (push sched fileQueue) = length fileQueue
  /\ Checked (wait (check_messages delivered))
     = uint (Z.of_nat (entries delivered))
  /\ (entries delivered <= length fileQueue)%nat
  /\ (delivered ≡ₚ push sched fileQueue ->
      Checked (wait (check_messages delivered))
      = uint (Z.of_nat (length fileQueue))).
Proof.
  intros Hnd Hsub.
  assert (entries (push sched fileQueue) = length fileQueue) as Hentries.
  { unfold push. rewrite push_run_entries; [| |exact Hnd|].
    - cbn [checked objectsToCheck].
      assert (forall n, entries (replicate n (∅ : gmap string Z)) = 0%nat)
        as Hz by (induction n as [|n IHn]; [reflexivity | exact IHn]).
      rewrite Hz. reflexivity.
    - cbn [objectsToCheck]. apply length_replicate.
    - intros k v [(m & [] & _)|(m & Hm & Hk)].
      cbn [objectsToCheck] in Hm.
      apply list_elem_of_In, elem_of_replicate in Hm as [-> _].
      rewrite lookup_empty in Hk. discriminate. }
  assert (Checked (wait (check_messages delivered))
          = uint (Z.of_nat (entries delivered))) as Hchecked.
  { unfold wait.
    rewrite (wait_Checked_fold (check_messages delivered)
               (mkReport 0 (oshub.mkSendReport 0 0 0)
                  (oshub.mkSyncReport 0 0 0 0)) 0 eq_refl).
    rewrite checked_sum_check_messages. reflexivity. }
  split; [exact Hentries|]. split; [exact Hchecked|]. split.
  - rewrite <- Hentries. apply entries_submseteq, Hsub.
  - intros Hperm. rewrite Hchecked. do 2 f_equal.
    rewrite <- Hentries.
    apply Nat.le_antisymm; apply entries_submseteq;
      [exact Hsub | rewrite Hperm; reflexivity].
Qed.

Lemma push_checked_total_witness :
  let batches := push [0%nat; 1%nat; 0%nat]
                   (scenario_client.numbered_files 3) in
  List.NoDup (map oshub.Path (scenario_client.numbered_files 3))
  /\ take 1 batches ⊆+ batches
  /\ entries batches = 3%nat
  /\ Checked (wait (check_messages (take 1 batches)))
     = uint (Z.of_nat (entries (take 1 batches)))
  /\ (entries (take 1 batches) <= 3)%nat.
Proof.
  cbv zeta.
  assert (List.NoDup (map oshub.Path (scenario_client.numbered_files 3))) as Hnd.
  { vm_compute. repeat constructor; cbn; intuition discriminate. }
  assert (take 1 (push [0%nat; 1%nat; 0%nat]
                    (scenario_client.numbered_files 3))
          ⊆+ push [0%nat; 1%nat; 0%nat] (scenario_client.numbered_files 3))
    as Hsub by (apply sublist_submseteq, sublist_take).
  split; [exact Hnd|]. split; [exact Hsub|].
  destruct (push_checked_total [0%nat; 1%nat; 0%nat]
              (scenario_client.numbered_files 3) _ Hnd Hsub)
    as (H1 & H2 & H3 & _).
  split; [exact H1|]. split; [exact H2 | exact H3].
Defined.

End Accounting.

(** ** The walker: what is queued *)

Section WalkerQueue.
Import golang localfs fiopush walking.

Lemma is_done_enqueue (f : oshub.RepoFile) (r : Walked) :
  is_done (enqueue f r) = is_done r.
Proof. destruct r; reflexivity. Qed.

Lemma walkFn_all_queue (dir : string) (vs : list (string * Node)) :
  queued_of (walkFn_all dir vs)
  = map (repo_file dir) (readable_prefix (List.filter (selected dir) vs))
  /\ is_done (walkFn_all dir vs)
     = forallb readable_file (List.filter (selected dir) vs).
Proof.
  induction vs as [|[fullPath info] rest [IHq IHd]]; [split; reflexivity|].
  change (List.filter (selected dir) ((fullPath, info) :: rest))
    with (if selected dir (fullPath, info)
          then (fullPath, info) :: List.filter (selected dir) rest
          else List.filter (selected dir) rest).
  assert (selected dir (fullPath, info)
          = negb (IsDir info) && filterRepoFiles (Replace1 fullPath dir "."))
    as -> by reflexivity.
  cbn [walkFn_all].
  destruct (IsDir info) eqn:Hdir; cbn [negb andb]; [split; assumption|].
  destruct (filterRepoFiles (Replace1 fullPath dir ".")) eqn:Hf;
    cbn [negb]; [|split; assumption].
  destruct info as [name data [|]|name children]; [| |discriminate];
    cbn [readable_prefix forallb readable_file snd].
  - rewrite queued_of_enqueue, is_done_enqueue, IHq, IHd.
    split; reflexivity.
  - split; reflexivity.
Qed.

Lemma readable_prefix_all (vs : list (string * Node)) :
  forallb readable_file vs = true -> readable_prefix vs = vs.
Proof.
  induction vs as [|v rest IH]; [reflexivity|].
  cbn [forallb readable_prefix]. intros [Hv Hrest]%andb_prop.
  rewrite Hv, (IH Hrest). reflexivity.
Qed.

(** When the walk ends normally, the root could be examined, every regular
    file whose root-relative path passes the filter could be opened, and
    the queue holds exactly one RepoFile for each of these files, in walk
    order, with the root-relative path and the CRC-32C of its bytes.
    (Equivalently: a file that passes the filter and cannot be opened makes
    the walk fatal.) *)
Theorem walkAndCrcRepo_queue (fs : FileSystem) (repoDir : string) :
  let dir := gopath.Clean repoDir in
  let chosen := List.filter (selected dir)
                  (scenario_client.walk_visits fs repoDir) in
  is_done (walkAndCrcRepo fs repoDir) = true ->
  queued_of (walkAndCrcRepo fs repoDir) = map (repo_file dir) chosen
  /\ forallb readable_file chosen = true
  /\ exists n, Stat fs dir = inl n.
Proof.
  cbv zeta. unfold walkAndCrcRepo, scenario_client.walk_visits.
  destruct (Stat fs (gopath.Clean repoDir)) as [n|e]; [|discriminate].
  destruct (walkFn_all_queue (gopath.Clean repoDir)
              (visits (gopath.Clean repoDir) n)) as [Hq Hd].
  rewrite Hq, Hd. intros Hall.
  rewrite (readable_prefix_all _ Hall). eauto.
Qed.

Lemma walkAndCrcRepo_queue_witness :
  is_done (walkAndCrcRepo scenario_client.repo_fs "/repo/") = true
  /\ queued_of (walkAndCrcRepo scenario_client.repo_fs "/repo/")
     = map (repo_file "/repo")
         (List.filter (selected "/repo")
            (scenario_client.walk_visits scenario_client.repo_fs "/repo/")).
Proof.
  assert (is_done (walkAndCrcRepo scenario_client.repo_fs "/repo/") = true)
    as Hd by (vm_compute; reflexivity).
  split; [exact Hd|].
  exact (proj1 (walkAndCrcRepo_queue scenario_client.repo_fs "/repo/" Hd)).
Defined.

End WalkerQueue.

(** ** The credential flow *)

Section Credentials.
Import golang fiopush credentials.

Lemma count_slash_app (a b : string) :
  count_slash (a +:+ b) = (count_slash a + count_slash b)%nat.
Proof.
  induction a as [|c a IH]; [reflexivity|].
  rewrite append_String. cbn [count_slash].
  destruct (Ascii.eqb c gopath.slash); rewrite IH; reflexivity.
Qed.

Lemma split_go_length (s cur : string) :
  length (gopath.split_go s cur) = S (count_slash s).
Proof.
  revert cur. induction s as [|c r IH]; intros cur; [reflexivity|].
  cbn [gopath.split_go count_slash].
  destruct (Ascii.eqb c gopath.slash); cbn [length]; rewrite IH; reflexivity.
Qed.

Lemma split_go_slash_free (s cur : string) :
  slash_free cur = true ->
  Forall (fun e => slash_free e = true) (gopath.split_go s cur).
Proof.
  revert cur. induction s as [|c r IH]; intros cur Hcur.
  - repeat constructor. exact Hcur.
  - cbn [gopath.split_go]. destruct (Ascii.eqb c gopath.slash) eqn:Hc.
    + constructor; [exact Hcur | apply IH; reflexivity].
    + apply IH. unfold slash_free in *.
      rewrite count_slash_app. cbn [count_slash]. rewrite Hc.
      apply Nat.eqb_eq in Hcur. rewrite Hcur. reflexivity.
Qed.

Lemma append_nil_r (s : string) : s +:+ "" = s.
Proof.
  induction s as [|c s IH]; [reflexivity|].
  rewrite append_String, IH. reflexivity.
Qed.

Lemma append_assoc (a b c : string) : (a +:+ b) +:+ c = a +:+ (b +:+ c).
Proof.
  induction a as [|d a IH]; [reflexivity|].
  rewrite !append_String, IH. reflexivity.
Qed.

(** Splitting a path whose first element is [x]. *)
Lemma split_go_element (x r cur : string) :
  slash_free x = true ->
  gopath.split_go (x +:+ "/" +:+ r) cur
  = (cur +:+ x) :: gopath.split_go r "".
Proof.
  revert cur. induction x as [|c x IH]; intros cur Hx.
  - rewrite append_nil_r. reflexivity.
  - unfold slash_free in Hx. cbn [count_slash] in Hx.
    destruct (Ascii.eqb c gopath.slash) eqn:Hc; [discriminate|].
    rewrite append_String. cbn [gopath.split_go]. rewrite Hc.
    rewrite IH by exact Hx. rewrite append_assoc. reflexivity.
Qed.

Lemma split_go_last (x cur : string) :
  slash_free x = true -> gopath.split_go x cur = [cur +:+ x].
Proof.
  revert cur. induction x as [|c x IH]; intros cur Hx.
  - rewrite append_nil_r. reflexivity.
  - unfold slash_free in Hx. cbn [count_slash] in Hx.
    destruct (Ascii.eqb c gopath.slash) eqn:Hc; [discriminate|].
    cbn [gopath.split_go]. rewrite Hc.
    rewrite IH by exact Hx. rewrite append_assoc. reflexivity.
Qed.

(** [ExtractUrlAndFactory] on a parsed server URL: it panics exactly when
    the path has fewer than three slashes; otherwise the factory is the
    fourth element of the path split at the slashes, the hub URL is
    [scheme://host], and the OAuth2 settings are attached whatever the
    [no_auth] flag of the archive says. *)
Theorem ExtractUrlAndFactory_factory
    (ParseCredArchive : string -> OSTreeInfo + string)
    (url_Parse : string -> ParsedURL + string) (credZip : string)
    (info : OSTreeInfo) (url : ParsedURL) :
  ParseCredArchive credZip = inl info ->
  url_Parse (ServerURL info) = inl url ->
  match ExtractUrlAndFactory ParseCredArchive url_Parse credZip with
  | ExtractPanic => (count_slash (UrlPath url) < 3)%nat
  | ExtractErr _ => False
  | ExtractOk hub =>
      (3 <= count_slash (UrlPath url))%nat
      /\ nth_error (gopath.split (UrlPath url)) 3 = Some (Factory hub)
      /\ slash_free (Factory hub) = true
      /\ URL hub = Scheme url +:+ "://" +:+ Host url
      /\ Auth hub = Some (InfoAuth info)
  end
  /\ (forall a b c f rest,
        slash_free a = true -> slash_free b = true ->
        slash_free c = true -> slash_free f = true ->
        UrlPath url = a +:+ "/" +:+ b +:+ "/" +:+ c +:+ "/" +:+ f
                      +:+ "/" +:+ rest ->
        ExtractUrlAndFactory ParseCredArchive url_Parse credZip
        = ExtractOk (mkOSTreeHub (Scheme url +:+ "://" +:+ Host url) f
                       (Some (InfoAuth info)))).
Proof.
  intros Hinfo Hurl. unfold ExtractUrlAndFactory. rewrite Hinfo, Hurl.
  cbv zeta. split.
  - pose proof (split_go_length (UrlPath url) "") as Hlen.
    fold (gopath.split (UrlPath url)) in Hlen.
    destruct (nth_error (gopath.split (UrlPath url)) 3) as [factory|] eqn:Hn.
    + cbn [Factory URL Auth].
      assert (3 < length (gopath.split (UrlPath url)))%nat as Hlt
        by (apply nth_error_Some; congruence).
      split; [lia|]. split; [reflexivity|]. split; [|auto].
      pose proof (split_go_slash_free (UrlPath url) "" eq_refl) as Hall.
      rewrite Forall_forall in Hall. apply Hall.
      apply list_elem_of_In. eapply nth_error_In. exact Hn.
    + apply nth_error_None in Hn. lia.
  - intros a b c f rest Ha Hb Hc Hf ->. unfold gopath.split.
    rewrite (split_go_element a _ "" Ha), (split_go_element b _ "" Hb),
      (split_go_element c _ "" Hc), (split_go_element f _ "" Hf).
    reflexivity.
Qed.

Lemma ExtractUrlAndFactory_factory_witness :
  let info := mkOSTreeInfo (mkOAuth2 "https://auth" "id" "secret") true
                "https://api.foundries.io/ota/treehub/msul-dev01/api/v3/" in
  let url := mkParsedURL "https" "api.foundries.io"
               "/ota/treehub/msul-dev01/api/v3/" in
  ExtractUrlAndFactory (fun _ => inl info) (fun _ => inl url) "creds.zip"
  = ExtractOk (mkOSTreeHub "https://api.foundries.io" "msul-dev01"
                 (Some (mkOAuth2 "https://auth" "id" "secret"))).
Proof.
  cbv zeta.
  exact (proj2
           (ExtractUrlAndFactory_factory
              (fun _ =>
                 inl (mkOSTreeInfo (mkOAuth2 "https://auth" "id" "secret")
                        true
                        "https://api.foundries.io/ota/treehub/msul-dev01/api/v3/"))
              (fun _ =>
                 inl (mkParsedURL "https" "api.foundries.io"
                        "/ota/treehub/msul-dev01/api/v3/"))
              "creds.zip" _ _ eq_refl eq_refl)
           "" "ota" "treehub" "msul-dev01" "api/v3/"
           eq_refl eq_refl eq_refl eq_refl eq_refl).
Defined.

End Credentials.

(** ** Constructing and authenticating a pusher *)

Section Construction.
Import golang localfs fiopush credentials.

(** Whenever [NewPusherNoAuth] succeeds, the pre-flight check has passed,
    neither the hub URL nor the factory is empty, the pusher has an empty
    token, no OAuth2 settings and the factory in the query string, and
    [auth] returns it unchanged without asking for a token.  It fails with
    the error of the pre-flight check when that check fails, and with its
    own message when the hub URL, or else the factory, is empty.  (The
    request URL must parse as well; its failure is not part of
    [NewPusherNoAuth] here, so nothing is said of when the constructor
    succeeds.) *)
Theorem NewPusherNoAuth_spec (fs : FileSystem) (repo hubURL factory : string)
    (GetOAuthToken : OAuth2 -> string + string) :
  (forall p,
     NewPusherNoAuth fs repo hubURL factory = inl p ->
     checkRepoDir fs repo = None /\ hubURL <> "" /\ factory <> ""
     /\ p = mkPusher repo (hubURL +:+ "/v1/repos/lmp?factory=" +:+ factory)
              (mkOSTreeHub hubURL factory None) ""
     /\ auth GetOAuthToken p = inl p)
  /\ (forall err,
        checkRepoDir fs repo = Some err ->
        NewPusherNoAuth fs repo hubURL factory = inr err)
  /\ (checkRepoDir fs repo = None -> hubURL = "" ->
      NewPusherNoAuth fs repo hubURL factory
      = inr "URL to OSTreehub is not specified")
  /\ (checkRepoDir fs repo = None -> hubURL <> "" -> factory = "" ->
      NewPusherNoAuth fs repo hubURL factory
      = inr "factory name is not specified").
Proof.
  unfold NewPusherNoAuth. split; [|split; [|split]].
  - intros p.
    destruct (checkRepoDir fs repo) as [err|]; [discriminate|].
    destruct (String.eqb_spec hubURL "") as [Hu|Hu]; [discriminate|].
    destruct (String.eqb_spec factory "") as [Hf|Hf]; [discriminate|].
    cbn [URL Factory]. intros [= <-]. repeat split; assumption.
  - intros err ->. reflexivity.
  - intros -> ->. reflexivity.
  - intros -> Hu ->.
    destruct (String.eqb_spec hubURL "") as [Hu'|_]; [contradiction|].
    reflexivity.
Qed.

Lemma NewPusherNoAuth_spec_witness :
  let p := mkPusher "/repo" "https://hub.example/v1/repos/lmp?factory=acme"
             (mkOSTreeHub "https://hub.example" "acme" None) "" in
  NewPusherNoAuth scenario_client.repo_fs "/repo" "https://hub.example" "acme"
  = inl p
  /\ auth (fun _ => inl "tok") p = inl p.
Proof.
  cbv zeta.
  assert (NewPusherNoAuth scenario_client.repo_fs "/repo"
            "https://hub.example" "acme"
          = inl (mkPusher "/repo"
                   "https://hub.example/v1/repos/lmp?factory=acme"
                   (mkOSTreeHub "https://hub.example" "acme" None) ""))
    as Hnew by (vm_compute; reflexivity).
  split; [exact Hnew|].
  exact (proj2 (proj2 (proj2 (proj2
           (proj1 (NewPusherNoAuth_spec scenario_client.repo_fs "/repo"
                     "https://hub.example" "acme" (fun _ => inl "tok"))
              _ Hnew))))).
Defined.

(** The credential flow: the pusher built by [NewPusher] targets
    [<hub>/ota/ostreehub/<factory>/v1/repos/lmp] and has no token yet; [auth]
    then stores the token that the OAuth2 server returns, and the check
    request carries it as [Bearer <token>]; when the token request fails,
    [auth] fails with that error. *)
Theorem NewPusher_auth_flow (fs : FileSystem)
    (ParseCredArchive : string -> OSTreeInfo + string)
    (url_Parse : string -> ParsedURL + string) (repo credFile : string)
    (GetOAuthToken : OAuth2 -> string + string) (p : pusher)
    (objs : gmap string Z) :
  NewPusher fs ParseCredArchive url_Parse repo credFile = Some (inl p) ->
  checkRepoDir fs repo = None
  /\ token p = ""
  /\ url p = URL (hub p) +:+ "/ota/ostreehub/" +:+ Factory (hub p)
             +:+ "/v1/repos/lmp"
  /\ exists a, Auth (hub p) = Some a
     /\ match GetOAuthToken a with
        | inl t =>
            auth GetOAuthToken p = inl (mkPusher (repo) (url p) (hub p) t)
            /\ Header_Get "Authorization"
                 (checkRepo_request objs (url p) t) = "Bearer " +:+ t
        | inr err => auth GetOAuthToken p = inr err
        end.
Proof.
  unfold NewPusher. destruct (checkRepoDir fs repo) as [err|]; [discriminate|].
  unfold ExtractUrlAndFactory.
  destruct (ParseCredArchive credFile) as [info|err]; [|discriminate].
  destruct (url_Parse (ServerURL info)) as [u|err]; [|discriminate].
  cbv zeta. destruct (nth_error _ 3) as [factory|]; [|discriminate].
  intros [= <-]. cbn [token url hub URL Factory Auth fiopush.repo].
  split; [reflexivity|]. split; [reflexivity|]. split; [reflexivity|].
  exists (InfoAuth info). split; [reflexivity|].
  unfold auth. cbn [hub Auth].
  destruct (GetOAuthToken (InfoAuth info)) as [t|err]; [|reflexivity].
  cbn [fiopush.repo url hub]. split; [reflexivity|].
  unfold checkRepo_request, Header_Get, Header_Set. cbn [Header].
  rewrite lookup_insert_eq. reflexivity.
Qed.

Lemma NewPusher_auth_flow_witness :
  let info := mkOSTreeInfo (mkOAuth2 "https://auth" "id" "secret") false
                "https://api.foundries.io/ota/treehub/acme/api/v3/" in
  let u := mkParsedURL "https" "api.foundries.io" "/ota/treehub/acme/api/v3/" in
  let p := mkPusher "/repo"
             "https://api.foundries.io/ota/ostreehub/acme/v1/repos/lmp"
             (mkOSTreeHub "https://api.foundries.io" "acme"
                (Some (mkOAuth2 "https://auth" "id" "secret"))) "" in
  NewPusher scenario_client.repo_fs (fun _ => inl info) (fun _ => inl u)
    "/repo" "creds.zip" = Some (inl p)
  /\ exists a, Auth (hub p) = Some a
     /\ match (fun _ : OAuth2 => inl "tok" : string + string) a with
        | inl t =>
            auth (fun _ => inl "tok") p
            = inl (mkPusher (repo p) (url p) (hub p) t)
            /\ Header_Get "Authorization"
                 (checkRepo_request ∅ (url p) t) = "Bearer " +:+ t
        | inr err => auth (fun _ => inl "tok") p = inr err
        end.
Proof.
  cbv zeta.
  assert (NewPusher scenario_client.repo_fs
            (fun _ =>
               inl (mkOSTreeInfo (mkOAuth2 "https://auth" "id" "secret")
                      false
                      "https://api.foundries.io/ota/treehub/acme/api/v3/"))
            (fun _ =>
               inl (mkParsedURL "https" "api.foundries.io"
                      "/ota/treehub/acme/api/v3/"))
            "/repo" "creds.zip"
          = Some (inl (mkPusher "/repo"
                         "https://api.foundries.io/ota/ostreehub/acme/v1/repos/lmp"
                         (mkOSTreeHub "https://api.foundries.io" "acme"
                            (Some (mkOAuth2 "https://auth" "id" "secret")))
                         ""))) as Hnew by (vm_compute; reflexivity).
  split; [exact Hnew|].
  exact (proj2 (proj2 (proj2
           (NewPusher_auth_flow _ _ _ _ _ (fun _ => inl "tok") _ ∅ Hnew)))).
Defined.

End Construction.

(** ** Object names do not collide *)

Section ObjectNames.
Import golang oshub naming.

(** Under one prefix, two paths below [./objects/] get the same bucket key
    only when they are the same path; [Check] and [Sync] therefore never map
    two objects of a repository to one bucket object. *)
Theorem objectName_of_injective (objectPrefix p1 p2 : string) :
  HasPrefix p1 "./objects/" = true ->
  HasPrefix p2 "./objects/" = true ->
  objectName_of objectPrefix p1 = objectName_of objectPrefix p2 ->
  p1 = p2.
Proof.
  intros [r1 ->]%HasPrefix_app [r2 ->]%HasPrefix_app. unfold objectName_of.
  change (slice_from 9 ("./objects/" +:+ r1)) with (Some ("/" +:+ r1)).
  change (slice_from 9 ("./objects/" +:+ r2)) with (Some ("/" +:+ r2)).
  cbn [default from_option id]. intros H.
  apply String.app_inj in H. apply (String.app_inj "/") in H.
  congruence.
Qed.

Lemma objectName_of_injective_witness :
  HasPrefix "./objects/ab/cd.file" "./objects/" = true
  /\ objectName_of "repo" "./objects/ab/cd.file" = "repo/ab/cd.file"
  /\ (objectName_of "repo" "./objects/ab/cd.file"
      = objectName_of "repo" "./objects/ab/cd.file" ->
      "./objects/ab/cd.file" = "./objects/ab/cd.file").
Proof.
  split; [reflexivity|]. split; [reflexivity|].
  exact (objectName_of_injective "repo" "./objects/ab/cd.file"
           "./objects/ab/cd.file" eq_refl eq_refl).
Defined.

End ObjectNames.

(** ** The walker on a relative root *)

Section WalkerDot.
Import golang localfs fiopush credentials cleaning.

Lemma Node_children_ind (P : Node -> Prop) :
  (forall name data readable, P (File name data readable)) ->
  (forall name children, Forall P children -> P (Dir name children)) ->
  forall n, P n.
Proof.
  intros Hfile Hdir. fix IH 1. intros [name data readable|name children].
  - apply Hfile.
  - apply Hdir. induction children as [|c cs IHcs]; constructor.
    + apply IH.
    + exact IHcs.
Qed.

Lemma clean_step_kept (is_rooted : bool) (out : list string) (c : string) :
  slash_free c = true -> Forall kept out ->
  Forall kept (gopath.clean_step is_rooted out c).
Proof.
  intros Hc Hout. unfold gopath.clean_step.
  destruct (String.eqb_spec c "") as [->|Hne]; [exact Hout|].
  destruct (String.eqb_spec c ".") as [->|Hnd]; [exact Hout|].
  assert (kept c) as Hk by (repeat split; assumption).
  destruct (String.eqb_spec c "..") as [->|Hndd].
  - destruct out as [|x rest].
    + destruct is_rooted; [constructor | repeat constructor; apply Hk].
    + destruct (String.eqb x "..");
        [constructor; assumption | inversion Hout; assumption].
  - constructor; assumption.
Qed.

Lemma components_kept (p : string) : Forall kept (gopath.components p).
Proof.
  unfold gopath.components. apply Forall_rev.
  assert (forall l out,
            Forall (fun e => slash_free e = true) l -> Forall kept out ->
            Forall kept (fold_left (gopath.clean_step (gopath.rooted p)) l out))
    as Hfold.
  { induction l as [|c l IH]; intros out Hl Hout; [exact Hout|].
    inversion Hl; subst. cbn [fold_left].
    apply IH; [assumption | apply clean_step_kept; assumption]. }
  apply Hfold; [|constructor].
  apply split_go_slash_free. reflexivity.
Qed.

End WalkerDot.

Section WalkerDotMain.
Import golang localfs fiopush credentials cleaning.

Lemma slash_free_cons (a : ascii) (s : string) :
  slash_free (String a s) = true ->
  Ascii.eqb a gopath.slash = false /\ slash_free s = true.
Proof.
  unfold slash_free. cbn [count_slash].
  destruct (Ascii.eqb a gopath.slash); [discriminate | auto].
Qed.

Lemma kept_head_no_dot_slash (c rest : string) :
  kept c -> HasPrefix (c +:+ rest) "./" = false.
Proof.
  intros (Hne & Hnd & Hsf).
  destruct c as [|a [|b c']]; [congruence| |].
  - unfold HasPrefix. rewrite append_String. cbn [String.prefix].
    destruct (ascii_dec "." a) as [<-|]; [congruence | reflexivity].
  - apply slash_free_cons in Hsf as [_ Hsf].
    apply slash_free_cons in Hsf as [Hb _].
    unfold HasPrefix. rewrite !append_String. cbn [String.prefix].
    destruct (ascii_dec "." a); [|reflexivity].
    destruct (ascii_dec "/" b) as [<-|]; [|reflexivity].
    discriminate Hb.
Qed.

Lemma join_with_slash_no_dot_slash (cs : list string) :
  Forall kept cs -> HasPrefix (gopath.join_with_slash cs) "./" = false.
Proof.
  intros Hcs. destruct cs as [|c rest]; [reflexivity|].
  inversion Hcs as [|? ? Hc Hrest]; subst.
  destruct rest as [|d rest'].
  - cbn [gopath.join_with_slash].
    pose proof (kept_head_no_dot_slash c "" Hc) as H.
    rewrite append_nil_r in H. exact H.
  - change (gopath.join_with_slash (c :: d :: rest'))
      with (c +:+ "/" +:+ gopath.join_with_slash (d :: rest')).
    apply kept_head_no_dot_slash, Hc.
Qed.

(** A cleaned path never starts with [./]. *)
Lemma Clean_no_dot_slash (p : string) :
  HasPrefix (gopath.Clean p) "./" = false.
Proof.
  unfold gopath.Clean.
  pose proof (join_with_slash_no_dot_slash _ (components_kept p)) as Hbody.
  destruct (gopath.rooted p); [reflexivity|].
  destruct (String.eqb _ ""); [reflexivity | exact Hbody].
Qed.

Lemma Join_no_dot_slash (a b : string) :
  HasPrefix (gopath.Join a b) "./" = false.
Proof.
  unfold gopath.Join.
  destruct (String.eqb a ""); [destruct (String.eqb b ""); [reflexivity|]|];
    [apply Clean_no_dot_slash|].
  destruct (String.eqb b ""); apply Clean_no_dot_slash.
Qed.

Lemma Replace1_same (s : string) : Replace1 s "." "." = s.
Proof.
  induction s as [|c s IH]; [reflexivity|].
  cbn [Replace1]. destruct (HasPrefix (String c s) ".") eqn:Hp.
  - apply HasPrefix_app in Hp as [r Hr]. rewrite Hr. reflexivity.
  - rewrite IH. reflexivity.
Qed.

Lemma visits_paths (n : Node) (path : string) :
  Forall (fun v => v.1 = path \/ HasPrefix v.1 "./" = false) (visits path n).
Proof.
  revert path. induction n as [name data readable|name children IH]
    using Node_children_ind; intros path.
  - repeat constructor.
  - cbn [visits]. constructor; [left; reflexivity|].
    induction IH as [|child rest Hchild _ IHrest]; [constructor|].
    apply Forall_app. split; [|exact IHrest].
    eapply Forall_impl; [apply Hchild|].
    intros v [->|H]; right; [apply Join_no_dot_slash | exact H].
Qed.

Lemma filterRepoFiles_dot_slash (p : string) :
  filterRepoFiles p = true -> HasPrefix p "./" = true.
Proof.
  unfold filterRepoFiles, repoFileFilterIn. cbn [filterRepoFiles_in].
  destruct (HasPrefix p "./objects/") eqn:H1.
  { intros _. apply HasPrefix_app in H1 as [r ->]. reflexivity. }
  destruct (HasPrefix p "./config") eqn:H2.
  { intros _. apply HasPrefix_app in H2 as [r ->]. reflexivity. }
  destruct (HasPrefix p "./refs/") eqn:H3; [|discriminate].
  intros _. apply HasPrefix_app in H3 as [r ->]. reflexivity.
Qed.

(** When the repository directory cleans to [.] (for instance [--repo .]),
    the paths of the walk are already relative and carry no leading [./], so
    none passes the filter: the walker queues nothing, whatever the
    repository holds. *)
Theorem walkAndCrcRepo_relative_root (fs : FileSystem) (repoDir : string) :
  gopath.Clean repoDir = "." ->
  queued_of (walkAndCrcRepo fs repoDir) = []
  /\ push [] (queued_of (walkAndCrcRepo fs repoDir)) = [].
Proof.
  intros Hdot.
  assert (queued_of (walkAndCrcRepo fs repoDir) = []) as Hq.
  { unfold walkAndCrcRepo. rewrite Hdot.
    destruct (Stat fs ".") as [n|e]; [|reflexivity].
    pose proof (walkFn_all_queued "." (visits "." n)) as Hall.
    destruct (queued_of (walkFn_all "." (visits "." n))) as [|f q];
      [reflexivity|].
    exfalso. inversion Hall as [|? ? Hf _]; subst.
    destruct Hf as [Hfilter (fullPath & name & data & Hin & Hpath & _)].
    rewrite Replace1_same in Hpath.
    apply filterRepoFiles_dot_slash in Hfilter. rewrite Hpath in Hfilter.
    pose proof (visits_paths n ".") as Hpaths.
    rewrite Forall_forall in Hpaths.
    destruct (Hpaths _ (proj2 (list_elem_of_In _ _) Hin)) as [Heq|Hno];
      cbn [fst] in *.
    - rewrite Heq in Hfilter. discriminate Hfilter.
    - congruence. }
  split; [exact Hq|]. rewrite Hq. vm_compute. reflexivity.
Qed.

Lemma walkAndCrcRepo_relative_root_witness :
  let fs := mkFileSystem (root scenario_client.repo_fs) "/repo" in
  gopath.Clean "./" = "."
  /\ checkRepoDir fs "./" = None
  /\ queued_of (walkAndCrcRepo fs "./") = []
  /\ push [] (queued_of (walkAndCrcRepo fs "./")) = [].
Proof.
  cbv zeta.
  assert (gopath.Clean "./" = ".") as Hdot by (vm_compute; reflexivity).
  split; [exact Hdot|]. split; [vm_compute; reflexivity|].
  exact (walkAndCrcRepo_relative_root
           (mkFileSystem (root scenario_client.repo_fs) "/repo") "./" Hdot).
Defined.

End WalkerDotMain.

(** ** Sync: what the bucket holds afterwards *)

Section SyncPost.
Import golang oshub naming staging.







End SyncPost.
